(** * Scope-aware lexical scanner and metrics engine

    A shallow embedding of the two analysis scripts of the repository,
    [scripts/find_production_unwraps.py] and [scripts/analyze_complexity.py],
    and the properties of them that the specification states.

    Text is a [string] of the Standard Library: a sequence of 8-bit characters,
    read as the code points U+0000 to U+00FF.  A file is the text that
    [open(path).read()] returns, or no text at all when opening or reading
    raises.  Python integers that are indices or counts are [nat]; the brace
    counter, which can go below zero, is a [Z].  Regular expressions are
    terms of [Re.regex], matched by a backtracking matcher that tries the
    alternatives in the order of Python's [re]. *)

From Stdlib Require Import String Ascii List ZArith Lia Bool Arith Sorted Permutation.
Import ListNotations.

Local Open Scope string_scope.
Local Open Scope list_scope.
Local Open Scope nat_scope.

(** ** Python built-ins used by the scripts *)

Module Py.

(** [range(a, b)] *)
Definition range (a b : nat) : list nat := seq a (b - a).

(** [enumerate(l)] *)
Definition enumerate {A : Type} (l : list A) : list (nat * A) :=
  combine (seq 0 (length l)) l.

(** [s.startswith(p)] *)
Fixpoint startswith (p s : string) : bool :=
  match p, s with
  | EmptyString, _ => true
  | String a p', String b s' => Ascii.eqb a b && startswith p' s'
  | String _ _, EmptyString => false
  end.

(** [sub in s] *)
Fixpoint contains (sub s : string) : bool :=
  startswith sub s ||
  match s with
  | EmptyString => false
  | String _ s' => contains sub s'
  end.

(** [s.count(c)] for a one-character [c] *)
Fixpoint count (c : ascii) (s : string) : nat :=
  match s with
  | EmptyString => 0
  | String a s' => (if Ascii.eqb a c then 1 else 0) + count c s'
  end.

(** [c.isspace()], which is also the class [\s] of [re] on [str]:
    TAB to CR, FS to US, SPACE, NEL and NBSP. *)
Definition isspace (c : ascii) : bool :=
  let n := nat_of_ascii c in
  ((9 <=? n) && (n <=? 13)) || ((28 <=? n) && (n <=? 32))
  || (n =? 133) || (n =? 160).

(** The class [\w] of [re] on [str]: alphanumeric or underscore.  Below
    U+0100 the alphanumerics are the ASCII digits and letters, the
    superscript digits and fractions, and the Latin-1 letters. *)
Definition isword (c : ascii) : bool :=
  let n := nat_of_ascii c in
  ((48 <=? n) && (n <=? 57)) || ((65 <=? n) && (n <=? 90))
  || ((97 <=? n) && (n <=? 122)) || (n =? 95)
  || (n =? 170) || (n =? 178) || (n =? 179) || (n =? 181)
  || ((185 <=? n) && (n <=? 186)) || ((188 <=? n) && (n <=? 190))
  || ((192 <=? n) && (n <=? 214)) || ((216 <=? n) && (n <=? 246))
  || (248 <=? n).

(** [s.lstrip()], [s.rstrip()], [s.strip()] *)
Fixpoint lstrip (s : string) : string :=
  match s with
  | EmptyString => EmptyString
  | String c s' => if isspace c then lstrip s' else s
  end.

Fixpoint rstrip (s : string) : string :=
  match s with
  | EmptyString => EmptyString
  | String c s' =>
      match rstrip s' with
      | EmptyString => if isspace c then EmptyString else String c EmptyString
      | r => String c r
      end
  end.

Definition strip (s : string) : string := rstrip (lstrip s).

(** [s[:n]] *)
Fixpoint slice_to (n : nat) (s : string) : string :=
  match n, s with
  | S n', String c s' => String c (slice_to n' s')
  | _, _ => EmptyString
  end.

(** [s.replace(old, "")] for a non-empty [old]: every occurrence of [old],
    found from left to right without overlap, is removed.  [skip] counts
    the characters of the current occurrence that are still to drop. *)
Fixpoint remove_from (old s : string) (skip : nat) : string :=
  match s with
  | EmptyString => EmptyString
  | String c s' =>
      match skip with
      | S k => remove_from old s' k
      | O => if startswith old s then remove_from old s' (String.length old - 1)
             else String c (remove_from old s' 0)
      end
  end.

Definition remove_all (old s : string) : string := remove_from old s 0.

(** [f.readlines()] on the text of a file: the lines, each with its
    newline, the last one possibly without. *)
Fixpoint splitlines_keepends (s : string) : list string :=
  match s with
  | EmptyString => []
  | String c s' =>
      if Ascii.eqb c "010"%char then String c EmptyString :: splitlines_keepends s'
      else match splitlines_keepends s' with
           | [] => [String c EmptyString]
           | l :: ls => String c l :: ls
           end
  end.

(** [sorted(l, key=key)]: ascending and stable. *)
Section Sorting.
Context {A : Type} (key : A -> Z).

Fixpoint insert_asc (x : A) (l : list A) : list A :=
  match l with
  | [] => [x]
  | y :: l' => if (key x <=? key y)%Z then x :: l else y :: insert_asc x l'
  end.

Definition sorted (l : list A) : list A := fold_right insert_asc [] l.

(** [l.sort(key=key, reverse=True)]: descending, and still stable. *)
Fixpoint insert_desc (x : A) (l : list A) : list A :=
  match l with
  | [] => [x]
  | y :: l' => if (key y <=? key x)%Z then x :: l else y :: insert_desc x l'
  end.

Definition sort_reverse (l : list A) : list A := fold_right insert_desc [] l.
End Sorting.

(** A [dict] with [str] keys, in insertion order.  [d[k] = v] keeps the
    place of a key that is already there. *)
Definition dict (V : Type) : Type := list (string * V).

Fixpoint setitem {V : Type} (k : string) (v : V) (d : dict V) : dict V :=
  match d with
  | [] => [(k, v)]
  | (k', v') :: d' =>
      if String.eqb k k' then (k, v) :: d' else (k', v') :: setitem k v d'
  end.

(** [d[k].append(x)] on a [defaultdict(list)] *)
Fixpoint append_at {V : Type} (k : string) (x : V) (d : dict (list V)) : dict (list V) :=
  match d with
  | [] => [(k, [x])]
  | (k', xs) :: d' =>
      if String.eqb k k' then (k', xs ++ [x]) :: d' else (k', xs) :: append_at k x d'
  end.

(** [os.path.join(a, b)] *)
Definition endswith_slash (a : string) : bool :=
  match String.get (String.length a - 1) a with
  | Some c => Ascii.eqb c "/"%char
  | None => false
  end.

Definition path_join (a b : string) : string :=
  if startswith "/" b then b
  else if (String.length a =? 0) || endswith_slash a then (a ++ b)%string
  else (a ++ "/" ++ b)%string.

(** [s.endswith(p)] *)
Definition endswith (p s : string) : bool :=
  let n := String.length s in
  let m := String.length p in
  (m <=? n) && String.eqb (String.substring (n - m) m s) p.

End Py.

(** ** Python's [re], as far as the scripts use it *)

Module Re.
Import Py.

(** A pattern: the empty pattern, a class of characters, the assertion
    [\b], a sequence, an ordered choice [r1|r2], a greedy [r*] and a
    numbered group. *)
Inductive regex : Type :=
| Eps
| Class (f : ascii -> bool)
| Bound
| Seq (r1 r2 : regex)
| Alt (r1 r2 : regex)
| Star (r : regex)
| Group (n : nat) (r : regex).

(** One character, a literal text, [r+] and [r?]. *)
Definition Chr (a : ascii) : regex := Class (Ascii.eqb a).

Fixpoint Str (w : string) : regex :=
  match w with
  | EmptyString => Eps
  | String a w' => Seq (Chr a) (Str w')
  end.

Definition Plus (r : regex) : regex := Seq r (Star r).
Definition Opt (r : regex) : regex := Alt r Eps.

(** The groups of a match, the last one closed first. *)
Definition groups : Type := list (nat * string).

Definition isword_opt (c : option ascii) : bool :=
  match c with Some a => isword a | None => false end.

Definition first_char (s : string) : option ascii :=
  match s with String a _ => Some a | EmptyString => None end.

(** [\b] holds between the character [prev] and the text [s], either of
    which may be missing at an end of the subject: exactly one of the two
    neighbours is a word character. *)
Definition at_boundary (prev : option ascii) (s : string) : bool :=
  xorb (isword_opt prev) (isword_opt (first_char s)).

(** What a match has consumed of [s] when [s'] is left. *)
Definition consumed (s s' : string) : string :=
  slice_to (String.length s - String.length s') s.

(** What is still to match after a pattern: it is given the last character
    consumed, the text left and the groups closed so far, and answers
    [None] to make the matcher try its next alternative. *)
Definition cont (R : Type) : Type := option ascii -> string -> groups -> option R.

(** The backtracking matcher.  A choice tries its left side first and its
    right side when everything after the left side fails; a star tries one
    more round first, and to stop when that fails.  A round that consumes
    nothing is refused.  Every round of a star takes one unit of [fuel]:
    more fuel than the text has characters is never used up. *)
Fixpoint run {R : Type} (fuel : nat)
    : regex -> option ascii -> string -> groups -> cont R -> option R :=
  fix go (r : regex) (prev : option ascii) (s : string) (g : groups) (k : cont R)
      {struct r} : option R :=
    match r with
    | Eps => k prev s g
    | Class f =>
        match s with
        | String a s' => if f a then k (Some a) s' g else None
        | EmptyString => None
        end
    | Bound => if at_boundary prev s then k prev s g else None
    | Seq r1 r2 => go r1 prev s g (fun prev' s' g' => go r2 prev' s' g' k)
    | Alt r1 r2 =>
        match go r1 prev s g k with
        | Some x => Some x
        | None => go r2 prev s g k
        end
    | Star r1 =>
        match fuel with
        | O => None
        | S fuel' =>
            match go r1 prev s g
                    (fun prev' s' g' =>
                       if String.length s' <? String.length s
                       then run fuel' (Star r1) prev' s' g' k
                       else None) with
            | Some x => Some x
            | None => k prev s g
            end
        end
    | Group n r1 =>
        go r1 prev s g (fun prev' s' g' => k prev' s' ((n, consumed s s') :: g'))
    end.

(** A match that starts at the start of [s], the character before being
    [prev]: its groups and the text after it. *)
Definition match_at (r : regex) (prev : option ascii) (s : string)
    : option (groups * string) :=
  run (S (String.length s)) r prev s [] (fun _ s' g => Some (g, s')).

(** [re.finditer(r, s)] for a pattern that matches no empty text: the
    matches from left to right, each search starting where the last match
    ended.  [skip] counts the characters of the last match still ahead. *)
Fixpoint finditer_from (r : regex) (prev : option ascii) (s : string) (skip : nat)
    : list groups :=
  match s with
  | EmptyString => []
  | String a s' =>
      match skip with
      | S n => finditer_from r (Some a) s' n
      | O =>
          match match_at r prev s with
          | Some (g, rest) =>
              g :: finditer_from r (Some a) s'
                     (String.length s - String.length rest - 1)
          | None => finditer_from r (Some a) s' 0
          end
      end
  end.

Definition finditer (r : regex) (s : string) : list groups := finditer_from r None s 0.

(** [m.group(n)]: [None] for a group that took no part in the match. *)
Fixpoint group (n : nat) (m : groups) : option string :=
  match m with
  | [] => None
  | (i, t) :: m' => if i =? n then Some t else group n m'
  end.

(** [m.group(n)] for a group that takes part in every match. *)
Definition group_text (n : nat) (m : groups) : string :=
  match group n m with
  | Some t => t
  | None => EmptyString
  end.

End Re.

(** The files of a run: what [open(path, 'r')] followed by [read()] returns,
    [None] when either raises. *)
Definition filesystem : Type := string -> option string.

(** ** scripts/find_production_unwraps.py *)

Module Unwraps.
Import Py.

Definition has_test_marker (l : string) : bool :=
  contains "#[test]" l || contains "#[cfg(test)]" l || contains "fn test_" l.

(** The inner loop of [is_test_code], over the indices [js] still to
    visit.  A subscript out of range raises: [None]. *)
Fixpoint brace_scan (lines : list string) (line_num : nat) (js : list nat)
    (brace_count : Z) : option bool :=
  match js with
  | [] => Some (0 <? brace_count)%Z
  | j :: js' =>
      match nth_error lines j with
      | None => None
      | Some l =>
          let brace_count :=
            (brace_count + (Z.of_nat (count "{" l) - Z.of_nat (count "}" l)))%Z in
          if (j <? line_num) && (brace_count =? 0)%Z then Some false
          else brace_scan lines line_num js' brace_count
      end
  end.

(** The outer loop of [is_test_code], over the indices [todo] still to
    visit: the first line with a marker decides. *)
Fixpoint marker_scan (lines : list string) (line_num : nat) (todo : list nat)
    : option bool :=
  match todo with
  | [] => Some false
  | i :: todo' =>
      match nth_error lines i with
      | None => None
      | Some l =>
          if has_test_marker l
          then brace_scan lines line_num
                 (range i (Nat.min (line_num + 1) (length lines))) 0%Z
          else marker_scan lines line_num todo'
      end
  end.

Definition is_test_code (lines : list string) (line_num : nat) : option bool :=
  marker_scan lines line_num (range (Nat.max 0 (line_num - 20)) line_num).

(** The loop of [find_unwraps] over the enumerated lines still to visit.
    The bare [except: pass] ends the loop at the first exception and the
    findings made so far are returned. *)
Fixpoint scan_lines (lines : list string) (todo : list (nat * string))
    (unwraps : list (nat * string)) : list (nat * string) :=
  match todo with
  | [] => unwraps
  | (i, line) :: todo' =>
      if contains ".unwrap()" line then
        let stripped := strip line in
        if startswith "//" stripped || startswith "///" stripped
        then scan_lines lines todo' unwraps
        else match is_test_code lines i with
             | None => unwraps
             | Some true => scan_lines lines todo' unwraps
             | Some false => scan_lines lines todo' (unwraps ++ [(i + 1, strip line)])
             end
      else scan_lines lines todo' unwraps
  end.

Definition find_unwraps_in (lines : list string) : list (nat * string) :=
  scan_lines lines (enumerate lines) [].

Definition find_unwraps (fs : filesystem) (filepath : string) : list (nat * string) :=
  match fs filepath with
  | None => []
  | Some text => find_unwraps_in (splitlines_keepends text)
  end.

(** [main]: [rglob] is what [src_dir.rglob('*.rs')] yields, as strings. *)
Definition files_to_check (rglob : list string) : list string :=
  filter (fun p => negb (contains "_test.rs" p) && negb (contains "/tests/" p)) rglob.

Fixpoint collect (fs : filesystem) (files : list string)
    (production_unwraps : dict (list (nat * string))) : dict (list (nat * string)) :=
  match files with
  | [] => production_unwraps
  | filepath :: files' =>
      let unwraps := find_unwraps fs filepath in
      match unwraps with
      | [] => collect fs files' production_unwraps
      | _ :: _ => collect fs files' (setitem filepath unwraps production_unwraps)
      end
  end.

Definition production_unwraps (fs : filesystem) (files : list string) :=
  collect fs files [].

(** What [main] prints: for each of the ten files with most findings, its
    path, its number of findings and its first three findings, each cut to
    80 characters; then the total over the files shown. *)
Record file_entry : Type := {
  entry_path : string;
  entry_count : nat;
  entry_examples : list (nat * string)
}.

Record report : Type := {
  shown : list file_entry;
  total : nat
}.

Definition ranked (d : dict (list (nat * string))) : dict (list (nat * string)) :=
  firstn 10 (sorted (fun x => (- Z.of_nat (length (snd x)))%Z) d).

Definition make_entry (x : string * list (nat * string)) : file_entry :=
  {| entry_path := fst x;
     entry_count := length (snd x);
     entry_examples := map (fun e => (fst e, slice_to 80 (snd e))) (firstn 3 (snd x)) |}.

Definition report_of (d : dict (list (nat * string))) : report :=
  {| shown := map make_entry (ranked d);
     total := fold_left (fun t x => t + length (snd x)) (ranked d) 0 |}.

Definition main (fs : filesystem) (rglob : list string) : report :=
  report_of (production_unwraps fs (files_to_check rglob)).

End Unwraps.

(** ** scripts/analyze_complexity.py *)

Module Complexity.
Import Py Re.

(** [\bw\b] *)
Definition keyword (w : string) : regex := Seq Bound (Seq (Str w) Bound).

Definition patterns : list regex :=
  [ keyword "if"; keyword "else"; keyword "for"; keyword "while"; keyword "loop";
    keyword "match"; Str "=>"; Str "?"; Str ".unwrap("; Str ".expect(";
    keyword "return"; keyword "break"; keyword "continue";
    Str "&&"; Str "||" ].

(** [len(re.findall(pattern, function_body))]: no pattern of the list has a
    group, so [findall] returns one text for each match. *)
Definition findall_len (pattern : regex) (function_body : string) : nat :=
  length (Re.finditer pattern function_body).

Definition count_complexity_indicators (function_body : string) : nat :=
  fold_left (fun complexity pattern => complexity + findall_len pattern function_body)
            patterns 1.

(** The classes [[^{]] and [[^{}]]. *)
Definition not_open (c : ascii) : bool := negb (Ascii.eqb c "{").
Definition not_brace (c : ascii) : bool :=
  negb (Ascii.eqb c "{") && negb (Ascii.eqb c "}").

(** [(?:[^{}]|\{[^{}]*\})]: what the body of a function is made of. *)
Definition body_item : regex :=
  Alt (Class not_brace)
      (Seq (Chr "{") (Seq (Star (Class not_brace)) (Chr "}"))).

(** [function_pattern], part by part:
    [(pub\s+)?], [(async\s+)?], [fn], [\s+], [(\w+)], [[^{]*], [\{],
    the body as group 4, [\}]. *)
Definition function_pattern : regex :=
  Seq (Opt (Group 1 (Seq (Str "pub") (Plus (Class isspace)))))
 (Seq (Opt (Group 2 (Seq (Str "async") (Plus (Class isspace)))))
 (Seq (Str "fn")
 (Seq (Plus (Class isspace))
 (Seq (Group 3 (Plus (Class isword)))
 (Seq (Star (Class not_open))
 (Seq (Chr "{")
 (Seq (Group 4 (Star body_item))
      (Chr "}")))))))).

(** [re.finditer(function_pattern, content)], each match as its groups 3
    and 4, which take part in every match. *)
Definition finditer (content : string) : list (string * string) :=
  map (fun m => (group_text 3 m, group_text 4 m))
      (Re.finditer function_pattern content).

(** A reported function: name, complexity, path. *)
Definition finding : Type := (string * nat * string)%type.

Definition complexity_of (x : finding) : nat := snd (fst x).
Definition path_of (x : finding) : string := snd x.

(** The loop of [analyze_rust_file] over the matches still to visit. *)
Fixpoint scan_matches (filepath : string) (todo : list (string * string))
    (functions : list finding) : list finding :=
  match todo with
  | [] => functions
  | (fn_name, fn_body) :: todo' =>
      if startswith "test_" fn_name then scan_matches filepath todo' functions
      else
        let complexity := count_complexity_indicators fn_body in
        if 10 <? complexity
        then scan_matches filepath todo' (functions ++ [(fn_name, complexity, filepath)])
        else scan_matches filepath todo' functions
  end.

(** [analyze_rust_file]: nothing catches what [open] or [read] raises. *)
Definition analyze_rust_file (fs : filesystem) (filepath : string) : option (list finding) :=
  match fs filepath with
  | None => None
  | Some content => Some (scan_matches filepath (finditer content) [])
  end.

(** The two loops of the script over what [os.walk('src')] yields, as
    pairs of a directory and its file names. *)
Fixpoint scan_files (fs : filesystem) (root : string) (files : list string)
    (high : list finding) : option (list finding) :=
  match files with
  | [] => Some high
  | file :: files' =>
      if endswith ".rs" file then
        match analyze_rust_file fs (path_join root file) with
        | None => None
        | Some functions => scan_files fs root files' (high ++ functions)
        end
      else scan_files fs root files' high
  end.

Fixpoint scan_walk (fs : filesystem) (walk : list (string * list string))
    (high : list finding) : option (list finding) :=
  match walk with
  | [] => Some high
  | (root, files) :: walk' =>
      if contains "tests" root || contains "test" root then scan_walk fs walk' high
      else
        match scan_files fs root files high with
        | None => None
        | Some high' => scan_walk fs walk' high'
        end
  end.

Definition high_complexity_functions (fs : filesystem)
    (walk : list (string * list string)) : option (list finding) :=
  match scan_walk fs walk [] with
  | None => None
  | Some high => Some (sort_reverse (fun x => Z.of_nat (complexity_of x)) high)
  end.

(** [by_file]: the functions of each file, the files in the order in which
    the sorted list first names them. *)
Definition by_file (high : list finding) : dict (list (string * nat)) :=
  fold_left (fun d x => append_at (path_of x) (fst x) d) high [].

(** A line of the file view: path, total complexity, number of functions. *)
Definition file_line : Type := (string * nat * nat)%type.

Definition total_of (x : file_line) : nat := snd (fst x).
Definition count_of (x : file_line) : nat := snd x.

Definition summarise (x : string * list (string * nat)) : file_line :=
  (fst x, list_sum (map snd (snd x)), length (snd x)).

Definition file_complexities (high : list finding) : list file_line :=
  sort_reverse (fun x => Z.of_nat (total_of x)) (map summarise (by_file high)).

(** What the script prints: the number of functions found, the twenty
    most complex ones with their rank, and the ten heaviest files; paths
    without ["src/"]. *)
Record report : Type := {
  found : nat;
  top_functions : list (nat * string * nat * string);
  top_files : list file_line
}.

Definition rel_path (filepath : string) : string := remove_all "src/" filepath.

Definition report_of (high : list finding) : report :=
  {| found := length high;
     top_functions :=
       map (fun ix => (S (fst ix), fst (fst (snd ix)), complexity_of (snd ix),
                       rel_path (path_of (snd ix))))
           (enumerate (firstn 20 high));
     top_files :=
       map (fun x => (rel_path (fst (fst x)), total_of x, count_of x))
           (firstn 10 (file_complexities high)) |}.

(** The whole script; [None] when an exception ends it. *)
Definition main (fs : filesystem) (walk : list (string * list string)) : option report :=
  option_map report_of (high_complexity_functions fs walk).

End Complexity.

(** ** scripts/fix_transaction_indentation.py *)

Module Indent.
Import Py.










End Indent.

(** ** Notions the properties are stated with *)

Module Notions.
Import Py.

(** Opening minus closing braces of a line. *)
Definition delta (l : string) : Z :=
  (Z.of_nat (count "{" l) - Z.of_nat (count "}" l))%Z.

(** The sum of [delta] over [n] lines from line [i] on. *)
Fixpoint depth_run (lines : list string) (i n : nat) : Z :=
  match n with
  | O => 0%Z
  | S n' => (depth_run lines i n' + delta (nth (i + n') lines EmptyString))%Z
  end.

(** The nesting depth after line [j], counted from line [i] included. *)
Definition depth_between (lines : list string) (i j : nat) : Z :=
  depth_run lines i (S j - i).

(** The first line with a test marker in the window before [line_num]. *)
Definition first_marker (lines : list string) (line_num : nat) : option nat :=
  find (fun i => Unwraps.has_test_marker (nth i lines EmptyString))
       (range (line_num - 20) line_num).

(** The depth rule in the words of the specification (section 4.1), to
    compare the scripts with: the depth starts from the braces of the
    signature line [start], and the scope ends at the first later line at
    which the depth is back to the value it had before the scope. *)
Definition spec_scope_end (lines : list string) (start : nat) : option nat :=
  find (fun j => (depth_between lines start j =? 0)%Z)
       (range (start + 1) (length lines)).

(** Orders and ties of a list sorted by [key]. *)
Definition desc {A : Type} (key : A -> Z) (a b : A) : Prop := (key b <= key a)%Z.
Definition asc {A : Type} (key : A -> Z) (a b : A) : Prop := (key a <= key b)%Z.
Definition has_key {A : Type} (key : A -> Z) (k : Z) (x : A) : bool := (key x =? k)%Z.

(** The distinct elements of a list, in the order of their first
    occurrence. *)
Fixpoint first_seen (l : list string) : list string :=
  match l with
  | [] => []
  | x :: l' => x :: filter (fun y => negb (String.eqb y x)) (first_seen l')
  end.

(** The reported functions of a file, their total complexity and their
    number. *)
Definition from_file (f : string) (x : Complexity.finding) : bool :=
  String.eqb (Complexity.path_of x) f.

Definition functions_of (high : list Complexity.finding) (f : string) :=
  filter (from_file f) high.

Definition file_total (high : list Complexity.finding) (f : string) : nat :=
  list_sum (map Complexity.complexity_of (functions_of high f)).

Definition file_count (high : list Complexity.finding) (f : string) : nat :=
  length (functions_of high f).

(** The files in the order of their first function in [high], each with
    its functions in the order of [high]. *)
Definition grouped (high : list Complexity.finding) : dict (list (string * nat)) :=
  map (fun f => (f, map fst (functions_of high f)))
      (first_seen (map Complexity.path_of high)).

(** The line of a file in the file view. *)
Definition row (high : list Complexity.finding) (f : string) : Complexity.file_line :=
  (f, file_total high f, file_count high f).

(** Of two lines with the same total, the one with more functions never
    comes second. *)
Definition ties_by_count (view : list Complexity.file_line) : Prop :=
  forall (i j : nat) (x y : Complexity.file_line),
    i < j -> nth_error view i = Some x -> nth_error view j = Some y ->
    Complexity.total_of x = Complexity.total_of y ->
    Complexity.count_of y <= Complexity.count_of x.

(** The paths that the complexity script opens when nothing raises. *)
Definition candidates (walk : list (string * list string)) : list string :=
  flat_map (fun rf =>
              if contains "tests" (fst rf) || contains "test" (fst rf) then []
              else map (path_join (fst rf)) (filter (endswith ".rs") (snd rf)))
           walk.

(** The keys of the two sorts of files. *)
Definition total_key (x : Complexity.file_line) : Z :=
  Z.of_nat (Complexity.total_of x).

Definition count_key (x : string * list (nat * string)) : Z :=
  (- Z.of_nat (length (snd x)))%Z.

(** The file system [fs] with the text [text] at [path]. *)
Definition with_file (fs : filesystem) (path text : string) : filesystem :=
  fun p => if String.eqb p path then Some text else fs p.

(** The depth at which the scan of a body is, by its flag. *)
Definition depth_of_flag (inner : bool) : Z := if inner then 1%Z else 0%Z.

(** What the loop of [find_unwraps] appends for an enumerated line. *)
Definition reported (lines : list string) (x : nat * string) : bool :=
  contains ".unwrap()" (snd x)
  && negb (startswith "//" (strip (snd x)) || startswith "///" (strip (snd x)))
  && match Unwraps.is_test_code lines (fst x) with
     | Some false => true
     | _ => false
     end.

(** A [//] stands somewhere before a risky call on the line. *)
Definition comment_before_call (line : string) : Prop :=
  exists a b c : string, line = (a ++ "//" ++ b ++ ".unwrap()" ++ c)%string.

(** A text followed by a newline, as [readlines] returns a line. *)
Definition ln (s : string) : string := (s ++ String "010" EmptyString)%string.

(** A file system with the one file [path], of text [text]. *)
Definition one_file (path text : string) : filesystem :=
  fun p => if String.eqb p path then Some text else None.

(** The last character of [pre]; of what stands before it, whose last
    character is [prev], when [pre] is empty. *)
Fixpoint last_char (prev : option ascii) (pre : string) : option ascii :=
  match pre with
  | EmptyString => prev
  | String c pre' => last_char (Some c) pre'
  end.

(** The pattern matches somewhere in the text. *)
Definition occurs (p : Re.regex) (s : string) : Prop :=
  exists pre post : string,
    s = (pre ++ post)%string
    /\ Re.match_at p (last_char None pre) post <> None.

Definition matches (p : Re.regex) (prev : option ascii) (s : string) : bool :=
  match Re.match_at p prev s with
  | Some _ => true
  | None => false
  end.

(** [re.search(p, s) is not None], from the position after [prev]. *)
Fixpoint search_from (p : Re.regex) (prev : option ascii) (s : string) : bool :=
  matches p prev s ||
  match s with
  | EmptyString => false
  | String c s' => search_from p (Some c) s'
  end.

Definition search (p : Re.regex) (s : string) : bool :=
  search_from p None s.

(** Opening minus closing braces of a text, character by character. *)
Definition char_depth (s : string) : Z :=
  (Z.of_nat (count "{" s) - Z.of_nat (count "}" s))%Z.

Definition brace_value (c : ascii) : Z :=
  if Ascii.eqb c "{" then 1%Z else if Ascii.eqb c "}" then (-1)%Z else 0%Z.

(** Every prefix of [body], read at depth [d], stays at depth 0 or 1, and
    the whole of it comes back to depth 0. *)
Definition shallow (d : Z) (body : string) : Prop :=
  (forall pre post : string,
      body = (pre ++ post)%string -> (0 <= d + char_depth pre <= 1)%Z)
  /\ (d + char_depth body = 0)%Z.

(** *** The function pattern as a scan from left to right

    Every choice that the backtracking matcher has on [function_pattern] is
    forced.  A shorter [\s+] leaves a space where a keyword or a word
    character must follow; an optional group given up leaves its own
    keyword where another one must follow; what a shorter [\w+] gives up,
    [[^{]*] takes; [[^{]*] has to stop at the first open brace; the items of
    the body start with different characters, and a body cut short stops in
    front of a character that is not a closing brace.  So the greedy first
    attempt is the only one that can succeed, and [match_here] makes it
    without going back; [match_at_function_pattern] below proves that the
    two agree on every text. *)

Fixpoint drop_prefix (p s : string) : option string :=
  match p, s with
  | EmptyString, _ => Some s
  | String a p', String b s' => if Ascii.eqb a b then drop_prefix p' s' else None
  | String _ _, EmptyString => None
  end.

(** The longest prefix of characters in the class [f], and the rest. *)
Fixpoint span (f : ascii -> bool) (s : string) : string * string :=
  match s with
  | EmptyString => (EmptyString, EmptyString)
  | String c s' =>
      if f c then let (a, b) := span f s' in (String c a, b)
      else (EmptyString, s)
  end.

(** [(kw\s+)?] *)
Definition opt_keyword (kw s : string) : string :=
  match drop_prefix kw s with
  | Some (String c r) => if isspace c then lstrip r else s
  | _ => s
  end.

(** The pattern up to the open brace of the body: the name, and the text
    after the brace. *)
Definition match_signature (s : string) : option (string * string) :=
  let s := opt_keyword "pub" s in
  let s := opt_keyword "async" s in
  match drop_prefix "fn" s with
  | None => None
  | Some s =>
      match span isspace s with
      | (EmptyString, _) => None
      | (_, s) =>
          match span isword s with
          | (EmptyString, _) => None
          | (fn_name, s) =>
              match span Complexity.not_open s with
              | (_, String _ s) => Some (fn_name, s)
              | (_, EmptyString) => None
              end
          end
      end
  end.

Definition push (c : ascii) (r : option (string * string)) : option (string * string) :=
  match r with
  | Some (body, rest) => Some (String c body, rest)
  | None => None
  end.

Fixpoint push_all (pre : string) (r : option (string * string)) : option (string * string) :=
  match pre with
  | EmptyString => r
  | String c pre' => push c (push_all pre' r)
  end.

(** The body and its closing brace: the body, and the text after the
    brace.  [inner] says that the scan is between two braces of the body. *)
Fixpoint match_body (s : string) (inner : bool) : option (string * string) :=
  match s with
  | EmptyString => None
  | String c s' =>
      if Ascii.eqb c "{" then
        if inner then None else push c (match_body s' true)
      else if Ascii.eqb c "}" then
        if inner then push c (match_body s' false) else Some (EmptyString, s')
      else push c (match_body s' inner)
  end.

(** The whole pattern: name, body, and the text after the match. *)
Definition match_here (s : string) : option (string * string * string) :=
  match match_signature s with
  | None => None
  | Some (fn_name, s1) =>
      match match_body s1 false with
      | None => None
      | Some (fn_body, rest) => Some (fn_name, fn_body, rest)
      end
  end.

(** A greedy star over one class, with what follows it as [k]: the longest
    run first, then the shorter ones. *)
Fixpoint greedy {R : Type} (f : ascii -> bool) (prev : option ascii) (s : string)
    (g : Re.groups) (k : Re.cont R) : option R :=
  match s with
  | String a s' =>
      if f a then
        match greedy f (Some a) s' g k with
        | Some x => Some x
        | None => k prev s g
        end
      else k prev s g
  | EmptyString => k prev s g
  end.

(** What follows the body has to start with a closing brace. *)
Definition needs_close {R : Type} (k : Re.cont R) : Prop :=
  forall p s g, (forall r, s <> String "}" r) -> k p s g = None.

(** The tails of [function_pattern], and what each of them does with what
    follows the pattern as [k]. *)
Definition body_then_close : Re.regex :=
  Re.Seq (Re.Group 4 (Re.Star Complexity.body_item)) (Re.Chr "}").

Definition from_brace : Re.regex :=
  Re.Seq (Re.Star (Re.Class Complexity.not_open)) (Re.Seq (Re.Chr "{") body_then_close).

Definition from_name : Re.regex :=
  Re.Seq (Re.Group 3 (Re.Plus (Re.Class isword))) from_brace.

Definition from_fn : Re.regex :=
  Re.Seq (Re.Str "fn") (Re.Seq (Re.Plus (Re.Class isspace)) from_name).

Definition from_async : Re.regex :=
  Re.Seq (Re.Opt (Re.Group 2 (Re.Seq (Re.Str "async") (Re.Plus (Re.Class isspace)))))
         from_fn.

Definition from_pub : Re.regex :=
  Re.Seq (Re.Opt (Re.Group 1 (Re.Seq (Re.Str "pub") (Re.Plus (Re.Class isspace)))))
         from_async.

Definition tail_body {R : Type} (k : Re.cont R) (s : string) (g : Re.groups) : option R :=
  match match_body s false with
  | Some (body, rest) => k (Some "}"%char) rest ((4, body) :: g)
  | None => None
  end.

Definition tail_brace {R : Type} (k : Re.cont R) (s : string) (g : Re.groups) : option R :=
  match snd (span Complexity.not_open s) with
  | String _ s1 => tail_body k s1 g
  | EmptyString => None
  end.

Definition tail_name {R : Type} (k : Re.cont R) (s : string) (g : Re.groups) : option R :=
  match span isword s with
  | (EmptyString, _) => None
  | (fn_name, s') => tail_brace k s' ((3, fn_name) :: g)
  end.

Definition tail_fn {R : Type} (k : Re.cont R) (s : string) (g : Re.groups) : option R :=
  match drop_prefix "fn" s with
  | Some s1 =>
      match span isspace s1 with
      | (EmptyString, _) => None
      | (_, s2) => tail_name k s2 g
      end
  | None => None
  end.

Definition tail_opt {R : Type} (n : nat) (kw : string)
    (after : string -> Re.groups -> option R) (s : string) (g : Re.groups)
    : option R :=
  match drop_prefix kw s with
  | Some (String c r) =>
      if isspace c then after (lstrip r) ((n, Re.consumed s (lstrip r)) :: g)
      else after s g
  | _ => after s g
  end.

Definition tail_async {R : Type} (k : Re.cont R) : string -> Re.groups -> option R :=
  tail_opt 2 "async" (tail_fn k).

Definition tail_pub {R : Type} (k : Re.cont R) : string -> Re.groups -> option R :=
  tail_opt 1 "pub" (tail_async k).

(** A file in which the risky-call detector finds something. *)
Definition has_findings (fs : filesystem) (p : string) : bool :=
  match Unwraps.find_unwraps fs p with
  | [] => false
  | _ :: _ => true
  end.



(** What [analyze_rust_file] returns for a readable file. *)
Definition findings_of (fs : filesystem) (p : string) : list Complexity.finding :=
  match fs p with
  | Some content => Complexity.scan_matches p (Complexity.finditer content) []
  | None => []
  end.

Definition readable (fs : filesystem) (p : string) : bool :=
  match fs p with
  | Some _ => true
  | None => false
  end.









End Notions.

(** ** Sample files *)

Module Samples.
Import Notions.

(** A test in the usual layout: the attribute on a line of its own, the
    risky call five lines below it and inside the function. *)
Definition attribute_test : list string :=
  [ ln "#[test]";
    ln "fn test_parse() {";
    ln "    let a = 1;";
    ln "    let b = 2;";
    ln "    let result = parse(a, b);";
    ln "    result.unwrap();";
    ln "}" ].

(** The same call in a file without any test marker. *)
Definition unmarked_text : string :=
  (ln "fn run() {" ++ ln "    result.unwrap();" ++ ln "}")%string.

(** A risky call in a comment that ends a line of code. *)
Definition trailing_comment : string := ln "let x = 1; // y.unwrap()".

(** A function with braces nested three deep. *)
Definition nested_text : string :=
  (ln "fn f() {" ++ ln "    if a {" ++ ln "        if b { c() }"
   ++ ln "    }" ++ ln "}")%string.

(** A test function without attribute. *)
Definition plain_test : list string :=
  [ ln "fn test_a() {"; ln "    x.unwrap();"; ln "}" ].

(** Two files with the same total complexity: one function of complexity
    22 in the first, two of complexity 11 in the second. *)
Definition one_heavy : string := "fn a() { ????????????????????? }".
Definition two_light : string := "fn b1() { ?????????? } fn b2() { ?????????? }".

Definition fs_tie : filesystem :=
  fun p => if String.eqb p "src/a.rs" then Some one_heavy
           else if String.eqb p "src/b.rs" then Some two_light
           else None.

Definition walk_tie : list (string * list string) := [("src", ["a.rs"; "b.rs"])].

(** A file that cannot be read next to one that can; and the same with
    the first file readable and empty. *)
Definition good_text : string :=
  (ln "fn g() {" ++ ln "    let v = a? + b? + c? + d? + e? + f? + g? + h? + i? + j?;"
   ++ ln "    v.unwrap();" ++ ln "}")%string.

Definition fs_unreadable : filesystem :=
  fun p => if String.eqb p "src/good.rs" then Some good_text else None.

Definition fs_empty : filesystem :=
  fun p => if String.eqb p "src/good.rs" then Some good_text
           else if String.eqb p "src/bad.rs" then Some EmptyString
           else None.

(** [fs_tie] and a file that no run opens. *)
Definition fs_tie_notes : filesystem := with_file fs_tie "notes.txt" "fn n() {}".

(** The scenario of the specification for the scorer. *)
Definition if_else_text : string := "fn f() { if a { 1 } else { 2 } }".
Definition if_else_body : string := " if a { 1 } else { 2 } ".

(** A test function that is closed before a function that is no test. *)
Definition closed_test : list string :=
  [ ln "fn test_a() {"; ln "    x.unwrap();"; ln "}";
    ln "fn run() {"; ln "    y.unwrap();"; ln "}" ].

(** Two test functions, the first one closed before the second starts. *)
Definition two_tests : list string :=
  [ ln "fn test_a() {"; ln "}"; ln "fn test_b() {"; ln "    x.unwrap();"; ln "}" ].

(** Every path is a file with one risky call; every path is a file with
    two functions of complexity 11. *)
Definition fs_calls : filesystem := fun _ => Some "x.unwrap()".

Definition fs_light : filesystem := fun _ => Some two_light.




End Samples.

(** ** The built-ins on small inputs *)

Example strip_line : Py.strip (Notions.ln "    result.unwrap();") = "result.unwrap();".
Proof. reflexivity. Qed.

Example contains_marker : Py.contains "fn test_" "    fn test_parse() {" = true.
Proof. reflexivity. Qed.

Example count_braces : Py.count "{" "if a { if b { c } }" = 2.
Proof. reflexivity. Qed.

Example readlines_keeps_newlines :
  Py.splitlines_keepends (Notions.ln "ab" ++ "c")%string = [Notions.ln "ab"; "c"].
Proof. reflexivity. Qed.

Example replace_every_occurrence : Py.remove_all "src/" "src/a/src/b.rs" = "a/b.rs".
Proof. reflexivity. Qed.

Example join_paths : Py.path_join "src/runtime" "repl.rs" = "src/runtime/repl.rs".
Proof. reflexivity. Qed.

Example sorted_is_stable :
  Py.sorted (fun x => (- Z.of_nat (snd x))%Z) [("a", 1); ("b", 2); ("c", 1); ("d", 2)]
  = [("b", 2); ("d", 2); ("a", 1); ("c", 1)].
Proof. reflexivity. Qed.

Example sort_reverse_is_stable :
  Py.sort_reverse (fun x => Z.of_nat (snd x)) [("a", 1); ("b", 2); ("c", 1); ("d", 2)]
  = [("b", 2); ("d", 2); ("a", 1); ("c", 1)].
Proof. reflexivity. Qed.

Example keyword_needs_boundaries :
  Complexity.findall_len (Complexity.keyword "if") "if iffy _if if_ x.if(if)" = 3.
Proof. reflexivity. Qed.

Example matches_do_not_overlap :
  Complexity.findall_len (Re.Str "&&") "a &&& b &&&& c" = 3.
Proof. reflexivity. Qed.

Example pattern_with_keywords :
  Complexity.finditer "pub async fn get<T>(x: T) -> T { x? } pubfn h() { {} }"
  = [("get", " x? "); ("h", " {} ")].
Proof. reflexivity. Qed.

Example plain_test_is_test : Unwraps.is_test_code Samples.plain_test 1 = Some true.
Proof. reflexivity. Qed.

(** * Properties *)

Import Py Re Notions Samples.

#[local] Arguments Ascii.eqb : simpl never.
#[local] Arguments String.eqb : simpl never.

(** Two boolean tests of equality that say the same, one on [nat] and one
    on [Z]. *)
Ltac eqb_agree :=
  repeat match goal with
         | |- context [Nat.eqb ?a ?b] => destruct (Nat.eqb_spec a b)
         | |- context [Z.eqb ?a ?b] => destruct (Z.eqb_spec a b)
         end;
  try reflexivity; lia.

(** ** The classifier reads a window of the file *)

Section Window.
Import Unwraps.
Variables (lines1 lines2 : list string) (line_num : nat).

Lemma brace_scan_agree (js : list nat) (brace_count : Z) :
  (forall j, In j js -> nth_error lines1 j = nth_error lines2 j) ->
  brace_scan lines1 line_num js brace_count
  = brace_scan lines2 line_num js brace_count.
Proof.
  revert brace_count.
  induction js as [|j js IH]; intros bc Hagree; simpl; [reflexivity|].
  rewrite <- (Hagree j (or_introl eq_refl)).
  destruct (nth_error lines1 j) as [l|]; [|reflexivity].
  destruct (_ && _); [reflexivity|].
  apply IH. intros k Hk. apply Hagree. now right.
Qed.

Hypothesis agree :
  forall k, line_num - 20 <= k <= line_num ->
            nth_error lines1 k = nth_error lines2 k.

Lemma agree_stop (i : nat) :
  line_num - 20 <= i < line_num -> i < length lines1 ->
  Nat.min (line_num + 1) (length lines1) = Nat.min (line_num + 1) (length lines2).
Proof.
  intros Hi Hlen.
  destruct (Nat.lt_ge_cases line_num (length lines1)) as [Hlt|Hge].
  - assert (line_num < length lines2).
    { apply nth_error_Some. rewrite <- agree by lia. now apply nth_error_Some. }
    lia.
  - assert (H1 : nth_error lines2 (length lines1) = None).
    { rewrite <- agree by lia. now apply nth_error_None. }
    apply nth_error_None in H1.
    assert (H0 : i < length lines2).
    { apply nth_error_Some. rewrite <- agree by lia. now apply nth_error_Some. }
    assert (H2 : nth_error lines1 (length lines2) = None).
    { rewrite agree by lia. now apply nth_error_None. }
    apply nth_error_None in H2. lia.
Qed.

Lemma marker_scan_agree (todo : list nat) :
  (forall i, In i todo -> line_num - 20 <= i < line_num) ->
  marker_scan lines1 line_num todo = marker_scan lines2 line_num todo.
Proof.
  induction todo as [|i todo IH]; intros Hin; simpl; [reflexivity|].
  assert (Hi : line_num - 20 <= i < line_num) by (apply Hin; now left).
  rewrite <- agree by lia.
  destruct (nth_error lines1 i) as [l|] eqn:El; [|reflexivity].
  destruct (has_test_marker l).
  - assert (Hlen : i < length lines1) by (apply nth_error_Some; congruence).
    rewrite <- (agree_stop i Hi Hlen).
    apply brace_scan_agree. intros j Hj. apply agree.
    unfold range in Hj. apply in_seq in Hj. lia.
  - apply IH. intros k Hk. apply Hin. now right.
Qed.

Lemma is_test_code_agree :
  is_test_code lines1 line_num = is_test_code lines2 line_num.
Proof.
  unfold is_test_code. apply marker_scan_agree.
  intros i Hi. unfold range in Hi. apply in_seq in Hi. lia.
Qed.
End Window.

(** C10.  The classification of line [line_num] depends only on lines
    [max(0, line_num - 20)] to [line_num]: two files that agree there get the
    same answer, an exception included.  In particular, whatever follows
    line [line_num] can be replaced without changing the answer. *)
Theorem classification_depends_on_window :
  (forall (lines1 lines2 : list string) (line_num : nat),
      (forall k, Nat.max 0 (line_num - 20) <= k <= line_num ->
                 nth_error lines1 k = nth_error lines2 k) ->
      Unwraps.is_test_code lines1 line_num = Unwraps.is_test_code lines2 line_num)
  /\
  (forall (lines after1 after2 : list string) (line_num : nat),
      line_num < length lines ->
      Unwraps.is_test_code (lines ++ after1) line_num
      = Unwraps.is_test_code (lines ++ after2) line_num).
Proof.
  split.
  - intros lines1 lines2 line_num H. apply is_test_code_agree.
    intros k Hk. apply H. simpl. lia.
  - intros lines after1 after2 line_num Hlen. apply is_test_code_agree.
    intros k Hk. now rewrite !nth_error_app1 by lia.
Qed.

Lemma classification_depends_on_window_witness :
  Unwraps.is_test_code plain_test 1
  = Unwraps.is_test_code (firstn 2 plain_test ++ [ln "} fn other() {"; ln "more"]) 1
  /\ Unwraps.is_test_code (firstn 2 plain_test ++ [ln "}"]) 1
     = Unwraps.is_test_code (firstn 2 plain_test ++ []) 1.
Proof.
  split.
  - apply (proj1 classification_depends_on_window). intros k Hk. simpl in Hk.
    destruct k as [|[|k]]; [reflexivity|reflexivity|lia].
  - apply (proj2 classification_depends_on_window). simpl. lia.
Defined.

(** ** What the classifier computes *)

Lemma existsb_agree {A : Type} (f g : A -> bool) (l : list A) :
  (forall x, In x l -> f x = g x) -> existsb f l = existsb g l.
Proof.
  induction l as [|x l IH]; intros H; simpl; [reflexivity|].
  rewrite (H x) by now left. f_equal. apply IH. intros y Hy. apply H. now right.
Qed.

Section Classifier.
Import Unwraps.
Variable lines : list string.
Variable line_num : nat.

Lemma nth_error_nth_default (i : nat) :
  i < length lines -> nth_error lines i = Some (nth i lines EmptyString).
Proof. intros H. now apply nth_error_nth'. Qed.

(** The inner loop from line [i + m] on, [m] lines after the marker line
    [i]: it answers [false] at the first line before [line_num] at which
    the depth is zero, and otherwise says whether the final depth is
    positive. *)
Lemma brace_scan_run (i n m : nat) :
  i + m + n <= length lines ->
  brace_scan lines line_num (seq (i + m) n) (depth_run lines i m)
  = Some (if existsb (fun j => (j <? line_num) && (depth_between lines i j =? 0)%Z)
                     (seq (i + m) n)
          then false else (0 <? depth_run lines i (m + n))%Z).
Proof.
  revert m. induction n as [|n IH]; intros m Hlen; simpl.
  - now rewrite Nat.add_0_r.
  - rewrite nth_error_nth_default by lia.
    assert (Hd : depth_between lines i (i + m) = depth_run lines i (S m)).
    { unfold depth_between. f_equal. lia. }
    rewrite Hd. simpl depth_run. fold (delta (nth (i + m) lines EmptyString)).
    destruct ((i + m <? line_num) && _) eqn:E; [reflexivity|].
    simpl. replace (S (i + m)) with (i + S m) by lia.
    change (depth_run lines i m + delta (nth (i + m) lines EmptyString))%Z
      with (depth_run lines i (S m)).
    rewrite IH by lia. now replace (S m + n) with (m + S n) by lia.
Qed.

Hypothesis in_file : line_num < length lines.

Lemma brace_scan_from (i : nat) :
  i < line_num ->
  brace_scan lines line_num (range i (Nat.min (line_num + 1) (length lines))) 0
  = Some (if existsb (fun j => (depth_between lines i j =? 0)%Z) (range i line_num)
          then false else (0 <? depth_between lines i line_num)%Z).
Proof.
  intros Hi. unfold range.
  replace (Nat.min (line_num + 1) (length lines) - i) with (S (line_num - i)) by lia.
  pose proof (brace_scan_run i (S (line_num - i)) 0) as H.
  rewrite Nat.add_0_r in H. cbn [depth_run] in H. rewrite H by lia. clear H.
  f_equal.
  replace (0 + S (line_num - i)) with (S line_num - i) by lia.
  fold (depth_between lines i line_num).
  replace (S (line_num - i)) with (line_num - i + 1) by lia.
  rewrite seq_app, existsb_app. cbn [seq existsb].
  replace (i + (line_num - i) <? line_num) with false
    by (symmetry; apply Nat.ltb_ge; lia).
  rewrite andb_false_l, !orb_false_r.
  rewrite (existsb_agree _ (fun j => (depth_between lines i j =? 0)%Z));
    [reflexivity|].
  intros j Hj. apply in_seq in Hj.
  replace (j <? line_num) with true by (symmetry; apply Nat.ltb_lt; lia).
  reflexivity.
Qed.

Lemma marker_scan_find (a n : nat) :
  a + n <= line_num ->
  marker_scan lines line_num (seq a n)
  = match find (fun i => has_test_marker (nth i lines EmptyString)) (seq a n) with
    | None => Some false
    | Some i => brace_scan lines line_num
                  (range i (Nat.min (line_num + 1) (length lines))) 0
    end.
Proof.
  revert a. induction n as [|n IH]; intros a Ha; simpl; [reflexivity|].
  rewrite nth_error_nth_default by lia.
  destruct (has_test_marker _); [reflexivity|]. apply IH. lia.
Qed.

Lemma first_marker_range (i : nat) :
  first_marker lines line_num = Some i ->
  line_num - 20 <= i < line_num
  /\ has_test_marker (nth i lines EmptyString) = true.
Proof.
  unfold first_marker, range. intros H. apply find_some in H.
  destruct H as [H1 H2]. apply in_seq in H1. split; [lia|assumption].
Qed.

(** [is_test_code] on a line of the file: the first marker of the window
    decides, by the depth counted from its own line. *)
Lemma is_test_code_eq :
  is_test_code lines line_num
  = match first_marker lines line_num with
    | None => Some false
    | Some i =>
        Some (if existsb (fun j => (depth_between lines i j =? 0)%Z) (range i line_num)
              then false else (0 <? depth_between lines i line_num)%Z)
    end.
Proof.
  unfold is_test_code, first_marker, range. simpl Nat.max.
  rewrite marker_scan_find by lia.
  destruct (find _ _) as [i|] eqn:E; [|reflexivity].
  apply brace_scan_from.
  apply (first_marker_range i). exact E.
Qed.

Lemma is_test_code_total : is_test_code lines line_num <> None.
Proof.
  rewrite is_test_code_eq. destruct (first_marker _ _); discriminate.
Qed.


Lemma is_test_code_true_iff :
  is_test_code lines line_num = Some true <->
  exists i, first_marker lines line_num = Some i
            /\ (forall j, i <= j < line_num -> depth_between lines i j <> 0%Z)
            /\ (0 < depth_between lines i line_num)%Z.
Proof.
  rewrite is_test_code_eq.
  destruct (first_marker lines line_num) as [i|] eqn:E.
  - destruct (existsb _ _) eqn:Ex.
    + split; [discriminate|]. intros (i' & Hi' & Hno & _).
      injection Hi' as <-. apply existsb_exists in Ex.
      destruct Ex as (j & Hj & Hz). unfold range in Hj. apply in_seq in Hj.
      apply Z.eqb_eq in Hz. exfalso. apply (Hno j); [lia|assumption].
    + split.
      * intros H. injection H as H. apply Z.ltb_lt in H.
        exists i. split; [reflexivity|]. split; [|assumption].
        intros j Hj Hz.
        assert (existsb (fun j => (depth_between lines i j =? 0)%Z) (range i line_num) = true)
          as Habs; [|congruence].
        apply existsb_exists. exists j. split.
        -- unfold range. apply in_seq. lia.
        -- now apply Z.eqb_eq.
      * intros (i' & Hi' & _ & Hpos). injection Hi' as <-.
        f_equal. now apply Z.ltb_lt.
  - split; [discriminate|]. intros (i & Hi & _). discriminate.
Qed.

Lemma first_marker_none_iff :
  first_marker lines line_num = None <->
  forall i, line_num - 20 <= i < line_num ->
            has_test_marker (nth i lines EmptyString) = false.
Proof.
  unfold first_marker, range. split.
  - intros H i Hi.
    apply (find_none _ _ H i). apply in_seq. lia.
  - intros H. destruct (find _ _) as [i|] eqn:E; [|reflexivity].
    apply find_some in E. destruct E as [E1 E2]. apply in_seq in E1.
    rewrite H in E2 by lia. discriminate.
Qed.
End Classifier.

(** ** What [find_unwraps] returns *)

Lemma in_combine_seq {A : Type} (l : list A) (a k : nat) (x : A) :
  In (k, x) (combine (seq a (length l)) l)
  <-> a <= k /\ nth_error l (k - a) = Some x.
Proof.
  revert a. induction l as [|y l IH]; intros a; simpl.
  - split; [tauto|]. intros [_ H]. destruct (k - a); discriminate.
  - rewrite IH. split.
    + intros [H|[H1 H2]].
      * injection H as <- <-. rewrite Nat.sub_diag. now split.
      * split; [lia|]. replace (k - a) with (S (k - S a)) by lia. exact H2.
    + intros [H1 H2]. destruct (k - a) as [|n] eqn:E.
      * left. injection H2 as <-. f_equal. lia.
      * right. split; [lia|]. now replace (k - S a) with n by lia.
Qed.

Lemma startswith_doc_comment (s : string) :
  startswith "///" s = true -> startswith "//" s = true.
Proof.
  destruct s as [|a [|b s]]; simpl; try discriminate.
  - now rewrite andb_false_r.
  - destruct (Ascii.eqb "/" a); [|discriminate].
    destruct (Ascii.eqb "/" b); [|discriminate].
    reflexivity.
Qed.

Section FindUnwraps.
Import Unwraps.
Variable lines : list string.

Lemma scan_lines_filter (todo : list (nat * string)) (unwraps : list (nat * string)) :
  (forall x, In x todo -> is_test_code lines (fst x) <> None) ->
  scan_lines lines todo unwraps
  = unwraps ++ map (fun x => (fst x + 1, strip (snd x))) (filter (reported lines) todo).
Proof.
  revert unwraps.
  induction todo as [|[i line] todo IH]; intros unwraps Htot.
  - simpl. now rewrite app_nil_r.
  - assert (Hrest : forall x, In x todo -> is_test_code lines (fst x) <> None)
      by (intros x Hx; apply Htot; now right).
    pose proof (Htot (i, line) (or_introl eq_refl)) as Hi. cbn [fst] in Hi.
    cbn [scan_lines filter]. unfold reported at 1. cbn [fst snd].
    destruct (contains ".unwrap()" line); cbn [andb]; [|now apply IH].
    destruct (startswith "//" (strip line) || startswith "///" (strip line));
      cbn [andb negb]; [now apply IH|].
    destruct (is_test_code lines i) as [[|]|]; [now apply IH| |congruence].
    rewrite IH by assumption. cbn [map fst snd]. now rewrite <- app_assoc.
Qed.

Lemma in_enumerate (i : nat) (line : string) :
  In (i, line) (enumerate lines) <-> nth_error lines i = Some line.
Proof.
  unfold enumerate. rewrite in_combine_seq, Nat.sub_0_r.
  split; [tauto|]. intros H. split; [lia|assumption].
Qed.

Lemma find_unwraps_in_eq :
  find_unwraps_in lines
  = map (fun x => (fst x + 1, strip (snd x))) (filter (reported lines) (enumerate lines)).
Proof.
  unfold find_unwraps_in. rewrite scan_lines_filter; [reflexivity|].
  intros [i line] Hx. simpl. apply in_enumerate in Hx.
  apply is_test_code_total. apply nth_error_Some. congruence.
Qed.

(** A finding is a line of the file that [reported] accepts, with its
    number counted from one and its trimmed text. *)
Lemma in_find_unwraps_in (n : nat) (text : string) :
  In (n, text) (find_unwraps_in lines) <->
  exists i line, nth_error lines i = Some line /\ n = i + 1 /\ text = strip line
                 /\ reported lines (i, line) = true.
Proof.
  rewrite find_unwraps_in_eq, in_map_iff. split.
  - intros ([i line] & Heq & Hin). simpl in Heq. injection Heq as <- <-.
    apply filter_In in Hin. destruct Hin as [Hin Hrep].
    apply in_enumerate in Hin. now exists i, line.
  - intros (i & line & Hnth & -> & -> & Hrep).
    exists (i, line). split; [reflexivity|].
    apply filter_In. split; [now apply in_enumerate|assumption].
Qed.

(** A line of the file is among the findings exactly when [reported]
    accepts it. *)
Lemma line_reported_iff (i : nat) (line : string) :
  nth_error lines i = Some line ->
  In (i + 1, strip line) (find_unwraps_in lines) <-> reported lines (i, line) = true.
Proof.
  intros Hnth. rewrite in_find_unwraps_in. split.
  - intros (i' & line' & Hnth' & Hi & _ & Hrep).
    assert (i' = i) by lia. subst i'.
    rewrite Hnth in Hnth'. injection Hnth' as <-. exact Hrep.
  - intros Hrep. now exists i, line.
Qed.
End FindUnwraps.

(** ** The risky-call detector *)

(** C4.  A line of a file with no test marker in the twenty lines before
    it is classified as production code.  Hence, in a file without any test
    marker, a line that contains [.unwrap()] and whose trimmed text does not
    start a comment is among the findings, under its number counted from one
    and with its trimmed text. *)
Theorem unmarked_code_is_production :
  (forall (lines : list string) (line_num : nat),
      line_num < length lines ->
      (forall i, Nat.max 0 (line_num - 20) <= i < line_num ->
                 Unwraps.has_test_marker (nth i lines EmptyString) = false) ->
      Unwraps.is_test_code lines line_num = Some false)
  /\
  (forall (fs : filesystem) (filepath text : string) (i : nat) (line : string),
      fs filepath = Some text ->
      (forall l, In l (splitlines_keepends text) -> Unwraps.has_test_marker l = false) ->
      nth_error (splitlines_keepends text) i = Some line ->
      contains ".unwrap()" line = true ->
      startswith "//" (strip line) = false ->
      In (i + 1, strip line) (Unwraps.find_unwraps fs filepath)).
Proof.
  assert (P1 : forall lines line_num,
             line_num < length lines ->
             (forall i, Nat.max 0 (line_num - 20) <= i < line_num ->
                        Unwraps.has_test_marker (nth i lines EmptyString) = false) ->
             Unwraps.is_test_code lines line_num = Some false).
  { intros lines line_num Hlen Hno.
    rewrite is_test_code_eq by assumption.
    replace (first_marker lines line_num) with (@None nat); [reflexivity|].
    symmetry. apply (proj2 (first_marker_none_iff lines line_num Hlen)).
    intros i Hi. apply Hno. simpl. lia. }
  split; [exact P1|].
  intros fs filepath text i line Hfs Hno Hnth Hcall Hcode.
  unfold Unwraps.find_unwraps. rewrite Hfs.
  apply line_reported_iff; [assumption|].
  unfold reported. cbn [fst snd]. rewrite Hcall, Hcode.
  destruct (startswith "///" (strip line)) eqn:Hdoc.
  { apply startswith_doc_comment in Hdoc. congruence. }
  rewrite P1; [reflexivity| |].
  - apply nth_error_Some. congruence.
  - intros k Hk. apply Hno. apply nth_In.
    assert (i < length (splitlines_keepends text)) by (apply nth_error_Some; congruence).
    lia.
Qed.

Lemma unmarked_code_is_production_witness :
  Unwraps.is_test_code (splitlines_keepends unmarked_text) 1 = Some false
  /\ In (2, "result.unwrap();")
        (Unwraps.find_unwraps (one_file "src/run.rs" unmarked_text) "src/run.rs").
Proof.
  split.
  - apply (proj1 unmarked_code_is_production).
    + vm_compute. lia.
    + intros i Hi. simpl in Hi.
      destruct i as [|i]; [reflexivity|lia].
  - apply (proj2 unmarked_code_is_production
             (one_file "src/run.rs" unmarked_text) "src/run.rs" unmarked_text
             1 (ln "    result.unwrap();")).
    + reflexivity.
    + intros l Hl. vm_compute in Hl.
      destruct Hl as [<-|[<-|[<-|[]]]]; reflexivity.
    + reflexivity.
    + reflexivity.
    + reflexivity.
Defined.

(** C1 (the code departs from it).  In [attribute_test] the marker
    [#[test]] stands on line 0, inside the window of line 5, and by the
    depth rule the scope it marks ends on line 6, after line 5.  Yet the
    inner loop finds the depth zero on the marker line itself and answers
    that the test function has been left: line 5 is classified as
    production code and its [.unwrap()] is reported. *)
Theorem attribute_marker_scope_is_left_at_once :
  Unwraps.has_test_marker (nth 0 attribute_test EmptyString) = true
  /\ contains ".unwrap()" (nth 5 attribute_test EmptyString) = true
  /\ spec_scope_end attribute_test 0 = Some 6
  /\ depth_between attribute_test 0 0 = 0%Z
  /\ Unwraps.is_test_code attribute_test 5 = Some false
  /\ Unwraps.find_unwraps_in attribute_test = [(6, "result.unwrap();")].
Proof. repeat split; vm_compute; reflexivity. Qed.

(** C5 (as amended).  A line that contains [.unwrap()] and is classified as
    production code is among the findings, with its trimmed text, exactly
    when its trimmed text does not begin with [//]: only a comment that
    takes the whole line is skipped. *)
Theorem only_whole_line_comments_are_skipped
    (lines : list string) (i : nat) (line : string) :
  nth_error lines i = Some line ->
  contains ".unwrap()" line = true ->
  Unwraps.is_test_code lines i = Some false ->
  In (i + 1, strip line) (Unwraps.find_unwraps_in lines)
  <-> startswith "//" (strip line) = false.
Proof.
  intros Hnth Hcall Hprod.
  rewrite line_reported_iff by assumption.
  unfold reported. cbn [fst snd]. rewrite Hcall, Hprod.
  destruct (startswith "//" (strip line)) eqn:Hc; cbn [orb negb andb].
  - split; discriminate.
  - destruct (startswith "///" (strip line)) eqn:Hdoc.
    + apply startswith_doc_comment in Hdoc. congruence.
    + now split.
Qed.

Lemma only_whole_line_comments_are_skipped_witness :
  In (1, "let x = 1; // y.unwrap()") (Unwraps.find_unwraps_in [trailing_comment])
  <-> startswith "//" (strip trailing_comment) = false.
Proof.
  apply (only_whole_line_comments_are_skipped [trailing_comment] 0 trailing_comment);
    reflexivity.
Defined.

(** C5 (as stated, refuted).  The line [let x = 1; // y.unwrap()] is not a
    comment line and is classified as production code; its risky call comes
    after a [//] on the same line, and it is reported all the same. *)
Lemma call_after_comment_marker_is_reported :
  nth_error [trailing_comment] 0 = Some trailing_comment
  /\ Unwraps.is_test_code [trailing_comment] 0 = Some false
  /\ startswith "//" (strip trailing_comment) = false
  /\ contains ".unwrap()" trailing_comment = true
  /\ comment_before_call trailing_comment
  /\ In (1, strip trailing_comment) (Unwraps.find_unwraps_in [trailing_comment]).
Proof.
  repeat split; try reflexivity.
  - exists "let x = 1; ", " y", (String "010" EmptyString). reflexivity.
  - vm_compute. now left.
Qed.

(** ** The complexity scorer *)

Section Scorer.
Variable p : Re.regex.

Lemma matches_true_iff (prev : option ascii) (s : string) :
  matches p prev s = true <-> Re.match_at p prev s <> None.
Proof.
  unfold matches. destruct (Re.match_at p prev s); split;
    congruence || discriminate.
Qed.

Lemma search_from_iff (prev : option ascii) (s : string) :
  search_from p prev s = true <->
  exists pre post : string,
    s = (pre ++ post)%string /\ matches p (last_char prev pre) post = true.
Proof.
  revert prev. induction s as [|c s IH]; intros prev; cbn [search_from].
  - rewrite orb_false_r. split.
    + intros H. now exists EmptyString, EmptyString.
    + intros (pre & post & Heq & H).
      destruct pre; [|discriminate]. destruct post; [|discriminate]. exact H.
  - rewrite orb_true_iff, IH. split.
    + intros [H|(pre & post & -> & H)].
      * now exists EmptyString, (String c s).
      * now exists (String c pre), post.
    + intros (pre & post & Heq & H). destruct pre as [|c' pre].
      * left. simpl in Heq. now subst post.
      * right. simpl in Heq. injection Heq as <- ->. now exists pre, post.
Qed.

Lemma occurs_iff_search (s : string) : occurs p s <-> search p s = true.
Proof.
  unfold occurs, search. rewrite search_from_iff.
  split; intros (pre & post & Heq & H); exists pre, post; split; try assumption;
    now apply matches_true_iff.
Qed.

(** Where the pattern matches at no position, the scan finds no match. *)
Lemma finditer_from_none (prev : option ascii) (s : string) (skip : nat) :
  search_from p prev s = false -> Re.finditer_from p prev s skip = [].
Proof.
  revert prev skip.
  induction s as [|c s IH]; intros prev skip; cbn [search_from Re.finditer_from].
  - reflexivity.
  - intros H. apply orb_false_iff in H. destruct H as [H1 H2].
    destruct skip; [|now apply IH]. unfold matches in H1.
    destruct (Re.match_at p prev (String c s)); [discriminate|]. now apply IH.
Qed.

Lemma findall_len_none (s : string) : ~ occurs p s -> Complexity.findall_len p s = 0.
Proof.
  intros H. unfold Complexity.findall_len, Re.finditer.
  rewrite finditer_from_none; [reflexivity|]. fold (search p s).
  destruct (search p s) eqn:E; [|reflexivity].
  exfalso. apply H. now apply occurs_iff_search.
Qed.
End Scorer.

Lemma fold_left_add {A : Type} (f : A -> nat) (l : list A) (a : nat) :
  fold_left (fun acc x => acc + f x) l a = a + list_sum (map f l).
Proof.
  revert a. induction l as [|x l IH]; intros a; simpl; [lia|].
  rewrite IH. lia.
Qed.

Lemma count_complexity_indicators_sum (function_body : string) :
  Complexity.count_complexity_indicators function_body
  = 1 + list_sum (map (fun p => Complexity.findall_len p function_body)
                      Complexity.patterns).
Proof. unfold Complexity.count_complexity_indicators. apply fold_left_add. Qed.

(** C3.  The score of a text is at least 1, and it is exactly 1 when none
    of the fifteen patterns matches anywhere in the text. *)
Theorem score_is_one_plus_matches (function_body : string) :
  1 <= Complexity.count_complexity_indicators function_body
  /\ ((forall p, In p Complexity.patterns -> ~ occurs p function_body) ->
      Complexity.count_complexity_indicators function_body = 1).
Proof.
  rewrite count_complexity_indicators_sum. split; [lia|].
  intros Hnone.
  enough (list_sum (map (fun p => Complexity.findall_len p function_body)
                        Complexity.patterns) = 0) by lia.
  induction Complexity.patterns as [|p ps IH]; [reflexivity|].
  cbn [map list_sum].
  rewrite (findall_len_none p) by (apply Hnone; now left).
  apply IH. intros q Hq. apply Hnone. now right.
Qed.

Lemma score_is_one_plus_matches_witness :
  Complexity.count_complexity_indicators "let x = compute(a, b);" = 1.
Proof.
  apply (proj2 (score_is_one_plus_matches "let x = compute(a, b);")).
  intros p Hp Hocc. apply occurs_iff_search in Hocc.
  unfold Complexity.patterns in Hp. cbn [In] in Hp.
  repeat (destruct Hp as [<-|Hp]; [vm_compute in Hocc; discriminate|]).
  destruct Hp.
Defined.

(** C9.  In the text [fn f() { if a { 1 } else { 2 } }] the function
    pattern finds the one function [f], with the text between its outer
    braces as body; [if] and [else] match once each in that body, and its
    score is 3. *)
Theorem if_else_scores_three :
  Complexity.finditer if_else_text = [("f", if_else_body)]
  /\ Complexity.findall_len (Complexity.keyword "if") if_else_body = 1
  /\ Complexity.findall_len (Complexity.keyword "else") if_else_body = 1
  /\ Complexity.count_complexity_indicators if_else_body = 3.
Proof. repeat split; vm_compute; reflexivity. Qed.

(** ** How the two scripts find the end of a scope *)

Lemma find_seq_first (f : nat -> bool) (a n E : nat) :
  find f (seq a n) = Some E ->
  a <= E < a + n /\ f E = true /\ forall j, a <= j < E -> f j = false.
Proof.
  revert a. induction n as [|n IH]; intros a; simpl; [discriminate|].
  destruct (f a) eqn:Fa.
  - intros H. injection H as <-. repeat split; [lia|lia|assumption|]. intros j Hj. lia.
  - intros H. apply IH in H. destruct H as (H1 & H2 & H3).
    repeat split; [lia|lia|assumption|].
    intros j Hj. destruct (Nat.eq_dec j a) as [->|Hne]; [assumption|].
    apply H3. lia.
Qed.

Section ScopeEnd.
Import Unwraps.
Variables (lines : list string) (line_num i : nat).
Hypothesis in_file : line_num < length lines.
Hypothesis marker : first_marker lines line_num = Some i.

Lemma spec_scope_end_after :
  (forall E, spec_scope_end lines i = Some E -> line_num < E) <->
  (forall j, i < j <= line_num -> depth_between lines i j <> 0%Z).
Proof.
  pose proof (first_marker_range lines line_num in_file i marker) as [Hi _].
  unfold spec_scope_end, range. split.
  - intros H j Hj Hz. apply Z.eqb_eq in Hz.
    destruct (find _ _) as [E|] eqn:F.
    + specialize (H E eq_refl).
      apply find_seq_first in F. destruct F as (_ & _ & F).
      rewrite F in Hz by lia. discriminate.
    + rewrite (find_none _ _ F j) in Hz; [discriminate|apply in_seq; lia].
  - intros H E F. apply find_some in F. destruct F as [F1 F2].
    apply in_seq in F1. apply Z.eqb_eq in F2.
    destruct (Nat.lt_ge_cases line_num E) as [|Hle]; [assumption|].
    exfalso. apply (H E); [lia|assumption].
Qed.

(** A line after the end of the marked scope is production code. *)
Lemma is_test_code_after_end (E : nat) :
  spec_scope_end lines i = Some E -> E < line_num ->
  is_test_code lines line_num = Some false.
Proof.
  intros HE Hlt. rewrite is_test_code_eq by assumption. rewrite marker.
  unfold spec_scope_end, range in HE. apply find_some in HE.
  destruct HE as [Hin Hz]. apply in_seq in Hin.
  replace (existsb _ _) with true; [reflexivity|].
  symmetry. apply existsb_exists. exists E. split; [|exact Hz].
  unfold range. apply in_seq. lia.
Qed.

(** When the braces of the marker line leave a depth other than zero, the
    classifier says "test" exactly when the scope end of the depth rule
    lies after [line_num], or is missing, and the depth at [line_num] is
    positive. *)
Lemma is_test_code_by_depth_rule :
  delta (nth i lines EmptyString) <> 0%Z ->
  is_test_code lines line_num = Some true <->
  (forall E, spec_scope_end lines i = Some E -> line_num < E)
  /\ (0 < depth_between lines i line_num)%Z.
Proof.
  intros Hopen.
  pose proof (first_marker_range lines line_num in_file i marker) as [Hi _].
  assert (Hii : depth_between lines i i = delta (nth i lines EmptyString)).
  { unfold depth_between. replace (S i - i) with 1 by lia.
    cbn [depth_run]. now rewrite Nat.add_0_r. }
  rewrite is_test_code_true_iff by assumption. rewrite spec_scope_end_after.
  split.
  - intros (i' & Hi' & Hno & Hpos). rewrite marker in Hi'. injection Hi' as <-.
    split; [|assumption]. intros j Hj.
    destruct (Nat.eq_dec j line_num) as [->|Hne]; [lia|]. apply Hno. lia.
  - intros [Hno Hpos]. exists i. repeat split; [assumption| |assumption].
    intros j Hj. destruct (Nat.eq_dec j i) as [->|Hne].
    + now rewrite Hii.
    + apply Hno. lia.
Qed.
End ScopeEnd.

Lemma char_depth_cons (c : ascii) (s : string) :
  char_depth (String c s) = (brace_value c + char_depth s)%Z.
Proof.
  unfold char_depth, brace_value. cbn [count].
  destruct (Ascii.eqb_spec c "{") as [->|H1].
  - change (Ascii.eqb "{" "}") with false. cbn [Nat.add]. lia.
  - destruct (Ascii.eqb c "}"); cbn [Nat.add]; lia.
Qed.

Lemma shallow_cons (d : Z) (c : ascii) (body : string) :
  shallow d (String c body) <->
  (0 <= d <= 1)%Z /\ shallow (d + brace_value c) body.
Proof.
  unfold shallow. split.
  - intros [Hpre Htot]. split; [|split].
    + specialize (Hpre EmptyString (String c body) eq_refl).
      change (char_depth EmptyString) with 0%Z in Hpre. lia.
    + intros pre post ->. specialize (Hpre (String c pre) post eq_refl).
      rewrite char_depth_cons in Hpre. lia.
    + rewrite char_depth_cons in Htot. lia.
  - intros [Hd [Hpre Htot]]. split.
    + intros [|c' pre] post Heq.
      * change (char_depth EmptyString) with 0%Z. lia.
      * simpl in Heq. injection Heq as <- ->.
        rewrite char_depth_cons. specialize (Hpre pre post eq_refl). lia.
    + rewrite char_depth_cons. lia.
Qed.

Lemma shallow_nil (d : Z) : shallow d EmptyString <-> d = 0%Z.
Proof.
  unfold shallow. change (char_depth EmptyString) with 0%Z. split.
  - intros [_ H]. lia.
  - intros ->. split; [|reflexivity].
    intros [|c pre] post Heq; [|discriminate].
    change (char_depth EmptyString) with 0%Z. lia.
Qed.

Section Extraction.
Import Complexity.

Lemma push_some (c : ascii) (r : option (string * string)) (body rest : string) :
  push c r = Some (body, rest) <->
  exists b, body = String c b /\ r = Some (b, rest).
Proof.
  unfold push. destruct r as [[b r']|]; split.
  - intros H. injection H as <- <-. now exists b.
  - intros (b' & -> & H). now injection H as -> ->.
  - discriminate.
  - intros (b' & _ & H). discriminate.
Qed.

(** The body that the pattern captures ends in front of the first closing
    brace that finds the depth at zero, and holds braces nested one deep
    at most; there is no other way for the body to match. *)
Lemma match_body_iff (s : string) (inner : bool) (body rest : string) :
  match_body s inner = Some (body, rest) <->
  s = (body ++ String "}" rest)%string /\ shallow (depth_of_flag inner) body.
Proof.
  split.
  - revert inner body rest.
    induction s as [|c s IH]; intros inner body rest; cbn [match_body];
      [discriminate|].
    destruct (Ascii.eqb_spec c "{") as [->|Hopen].
    { destruct inner; [discriminate|]. intros H.
      apply push_some in H. destruct H as (b & -> & H).
      apply IH in H. destruct H as [-> Hsh].
      split; [reflexivity|]. apply shallow_cons. split; [simpl; lia|exact Hsh]. }
    destruct (Ascii.eqb_spec c "}") as [->|Hclose].
    { destruct inner.
      - intros H. apply push_some in H. destruct H as (b & -> & H).
        apply IH in H. destruct H as [-> Hsh].
        split; [reflexivity|]. apply shallow_cons. split; [simpl; lia|exact Hsh].
      - intros H. injection H as <- <-. split; [reflexivity|].
        now apply shallow_nil. }
    intros H. apply push_some in H. destruct H as (b & -> & H).
    apply IH in H. destruct H as [-> Hsh].
    split; [reflexivity|]. apply shallow_cons.
    assert (Hv : brace_value c = 0%Z).
    { unfold brace_value.
      destruct (Ascii.eqb_spec c "{"); [contradiction|].
      destruct (Ascii.eqb_spec c "}"); [contradiction|]. reflexivity. }
    rewrite Hv, Z.add_0_r. split; [destruct inner; simpl; lia|exact Hsh].
  - revert s inner. induction body as [|c body IH]; intros s inner [-> Hsh].
    + apply shallow_nil in Hsh. destruct inner; [discriminate|]. reflexivity.
    + apply shallow_cons in Hsh. destruct Hsh as [_ Hsh].
      cbn [append match_body].
      destruct (Ascii.eqb_spec c "{") as [->|Hopen].
      { destruct inner.
        - exfalso.
          change (depth_of_flag true + brace_value "{")%Z with 2%Z in Hsh.
          destruct body as [|c' body'].
          + apply shallow_nil in Hsh. discriminate.
          + apply shallow_cons in Hsh. lia.
        - apply push_some. exists body. split; [reflexivity|].
          apply IH. split; [reflexivity|exact Hsh]. }
      destruct (Ascii.eqb_spec c "}") as [->|Hclose].
      { destruct inner.
        - apply push_some. exists body. split; [reflexivity|].
          apply IH. split; [reflexivity|exact Hsh].
        - exfalso.
          change (depth_of_flag false + brace_value "}")%Z with (-1)%Z in Hsh.
          destruct body as [|c' body'].
          + apply shallow_nil in Hsh. discriminate.
          + apply shallow_cons in Hsh. lia. }
      apply push_some. exists body. split; [reflexivity|].
      apply IH. split; [reflexivity|].
      assert (Hv : brace_value c = 0%Z).
      { unfold brace_value.
        destruct (Ascii.eqb_spec c "{"); [contradiction|].
        destruct (Ascii.eqb_spec c "}"); [contradiction|]. reflexivity. }
      now rewrite Hv, Z.add_0_r in Hsh.
Qed.

Lemma match_here_iff (s fn_name fn_body rest : string) :
  match_here s = Some (fn_name, fn_body, rest) <->
  exists s1, match_signature s = Some (fn_name, s1)
             /\ s1 = (fn_body ++ String "}" rest)%string
             /\ shallow 0 fn_body.
Proof.
  unfold match_here. split.
  - destruct (match_signature s) as [[n s1]|]; [|discriminate].
    destruct (match_body s1 false) as [[b r]|] eqn:E; [|discriminate].
    intros H. injection H as <- <- <-.
    apply match_body_iff in E. now exists s1.
  - intros (s1 & -> & Hs1 & Hsh).
    assert (E : match_body s1 false = Some (fn_body, rest))
      by (apply match_body_iff; now split).
    now rewrite E.
Qed.
End Extraction.

(** ** The backtracking matcher on the function pattern *)

Section Run.
Context {R : Type}.
Implicit Types (k : cont R) (r : regex) (s : string) (g : groups) (prev : option ascii).

Lemma run_Eps fuel prev s g k : run fuel Eps prev s g k = k prev s g.
Proof. destruct fuel; reflexivity. Qed.

Lemma run_Class fuel f prev s g k :
  run fuel (Class f) prev s g k
  = match s with
    | String a s' => if f a then k (Some a) s' g else None
    | EmptyString => None
    end.
Proof. destruct fuel; reflexivity. Qed.

Lemma run_Seq fuel r1 r2 prev s g k :
  run fuel (Seq r1 r2) prev s g k
  = run fuel r1 prev s g (fun prev' s' g' => run fuel r2 prev' s' g' k).
Proof. destruct fuel; reflexivity. Qed.

Lemma run_Alt fuel r1 r2 prev s g k :
  run fuel (Alt r1 r2) prev s g k
  = match run fuel r1 prev s g k with
    | Some x => Some x
    | None => run fuel r2 prev s g k
    end.
Proof. destruct fuel; reflexivity. Qed.

Lemma run_Group fuel n r prev s g k :
  run fuel (Group n r) prev s g k
  = run fuel r prev s g (fun prev' s' g' => k prev' s' ((n, consumed s s') :: g')).
Proof. destruct fuel; reflexivity. Qed.

Lemma run_Star fuel r prev s g k :
  run (S fuel) (Star r) prev s g k
  = match run (S fuel) r prev s g
            (fun prev' s' g' =>
               if String.length s' <? String.length s
               then run fuel (Star r) prev' s' g' k
               else None) with
    | Some x => Some x
    | None => k prev s g
    end.
Proof. reflexivity. Qed.

Lemma run_Str fuel w : forall prev s g k,
  run fuel (Str w) prev s g k
  = match drop_prefix w s with
    | Some r => k (last_char prev w) r g
    | None => None
    end.
Proof.
  induction w as [|a w IH]; intros prev s g k; cbn [Str drop_prefix last_char].
  - apply run_Eps.
  - rewrite run_Seq. unfold Chr. rewrite run_Class.
    destruct s as [|b s]; [reflexivity|].
    destruct (Ascii.eqb a b) eqn:E; [|reflexivity].
    apply Ascii.eqb_eq in E. subst b. apply IH.
Qed.
End Run.

Lemma span_app f s : s = (fst (span f s) ++ snd (span f s))%string.
Proof.
  induction s as [|a s IH]; cbn [span]; [reflexivity|].
  destruct (f a); [|reflexivity]. destruct (span f s). cbn in *. now f_equal.
Qed.

Lemma span_fst_fst f s : fst (span f (fst (span f s))) = fst (span f s).
Proof.
  induction s as [|a s IH]; cbn [span]; [reflexivity|].
  destruct (f a) eqn:Fa; [|reflexivity].
  destruct (span f s) as [p q]. cbn [fst] in *. cbn [span]. rewrite Fa.
  destruct (span f p). cbn in *. now f_equal.
Qed.

Lemma span_length f s : String.length (snd (span f s)) <= String.length s.
Proof.
  induction s as [|a s IH]; cbn [span]; [reflexivity|].
  destruct (f a); [|reflexivity]. destruct (span f s). cbn in *. lia.
Qed.

Lemma span_snd_head f s c r : snd (span f s) = String c r -> f c = false.
Proof.
  induction s as [|a s IH]; cbn [span]; [discriminate|].
  destruct (f a) eqn:Fa.
  - destruct (span f s). cbn in *. exact IH.
  - cbn. intros H. now injection H as <- _.
Qed.

(** A run of [h] characters in front does not change where a run of [f]
    characters ends, when [h] is within [f]. *)
Lemma span_prepend (f h : ascii -> bool) pre post :
  (forall c, h c = true -> f c = true) ->
  fst (span h pre) = pre ->
  snd (span f (pre ++ post)) = snd (span f post).
Proof.
  intros Hin. induction pre as [|a pre IH]; cbn [span append]; [reflexivity|].
  destruct (h a) eqn:Ha; [|discriminate].
  rewrite (Hin a Ha). intros H.
  destruct (span h pre) as [p q]. cbn [fst] in *. injection H as H.
  specialize (IH H). destruct (span f (pre ++ post)). cbn in *. exact IH.
Qed.

Lemma lstrip_span s : lstrip s = snd (span isspace s).
Proof.
  induction s as [|a s IH]; cbn [lstrip span]; [reflexivity|].
  destruct (isspace a); [|reflexivity]. rewrite IH. now destruct (span isspace s).
Qed.

Lemma last_char_app prev x y : last_char prev (x ++ y) = last_char (last_char prev x) y.
Proof. revert prev. induction x as [|a x IH]; intros prev; cbn; [reflexivity|apply IH]. Qed.

Lemma length_append a b :
  String.length (a ++ b) = String.length a + String.length b.
Proof. induction a as [|c a IH]; cbn [append String.length]; [reflexivity|now rewrite IH]. Qed.

Lemma consumed_app a b : consumed (a ++ b) b = a.
Proof.
  unfold consumed. rewrite length_append.
  replace (String.length a + String.length b - String.length b) with (String.length a) by lia.
  induction a as [|c a IH]; cbn [append String.length slice_to].
  - now destruct b.
  - now rewrite IH.
Qed.

Lemma drop_prefix_length w : forall s r,
  drop_prefix w s = Some r -> String.length r <= String.length s.
Proof.
  induction w as [|a w IH]; intros s r; cbn [drop_prefix].
  - intros H. now injection H as ->.
  - destruct s as [|b s]; [discriminate|]. destruct (Ascii.eqb a b); [|discriminate].
    intros H. apply IH in H. cbn. lia.
Qed.

Lemma isspace_not_word c : isspace c = true -> isword c = false.
Proof. destruct c as [[] [] [] [] [] [] [] []]; vm_compute; congruence. Qed.

Lemma isword_not_open c : isword c = true -> Complexity.not_open c = true.
Proof. destruct c as [[] [] [] [] [] [] [] []]; vm_compute; congruence. Qed.

Lemma space_not c a : isspace c = true -> isspace a = false -> Ascii.eqb a c = false.
Proof. intros Hc Ha. destruct (Ascii.eqb_spec a c) as [->|]; congruence. Qed.

Lemma not_brace_true a :
  Complexity.not_brace a = true -> a <> "{"%char /\ a <> "}"%char.
Proof.
  unfold Complexity.not_brace. destruct (Ascii.eqb_spec a "{"); [discriminate|].
  destruct (Ascii.eqb_spec a "}"); [discriminate|]. now split.
Qed.

Lemma not_brace_other a :
  a <> "{"%char -> a <> "}"%char -> Complexity.not_brace a = true.
Proof.
  intros H1 H2. unfold Complexity.not_brace.
  destruct (Ascii.eqb_spec a "{"); [contradiction|].
  destruct (Ascii.eqb_spec a "}"); [contradiction|]. reflexivity.
Qed.

Lemma push_all_some pre c b r :
  push_all pre (push c (Some (b, r))) = Some ((pre ++ String c b)%string, r).
Proof. induction pre as [|x pre IH]; cbn [push_all append]; [reflexivity|]. now rewrite IH. Qed.

Lemma push_all_none pre c : push_all pre (push c None) = None.
Proof. induction pre as [|x pre IH]; cbn [push_all]; [reflexivity|]. now rewrite IH. Qed.

(** Between two braces of the body the scan runs to the next brace, which
    has to be a closing one. *)
Lemma match_body_inner s :
  match_body s true
  = match snd (span Complexity.not_brace s) with
    | String c s3 =>
        if Ascii.eqb c "}"
        then push_all (fst (span Complexity.not_brace s)) (push c (match_body s3 false))
        else None
    | EmptyString => None
    end.
Proof.
  induction s as [|a s IH]; [reflexivity|]. cbn [match_body span].
  unfold Complexity.not_brace at 1 3.
  destruct (Ascii.eqb_spec a "{") as [->|H1]; [reflexivity|].
  destruct (Ascii.eqb_spec a "}") as [->|H2]; cbn [negb andb fst snd].
  - rewrite Ascii.eqb_refl. reflexivity.
  - rewrite IH. destruct (span Complexity.not_brace s) as [p q]. cbn [fst snd].
    destruct q as [|c s3]; [reflexivity|]. destruct (Ascii.eqb c "}"); reflexivity.
Qed.

Section Greedy.
Context {R : Type}.
Variable f : ascii -> bool.

Lemma run_star_class fuel : forall prev s g (k : cont R),
  String.length s < fuel ->
  run fuel (Star (Class f)) prev s g k = greedy f prev s g k.
Proof.
  induction fuel as [|fuel IH]; intros prev s g k Hlen; [lia|].
  rewrite run_Star, run_Class. destruct s as [|a s']; [reflexivity|].
  cbn [greedy]. destruct (f a); [|reflexivity].
  cbn [String.length] in *.
  replace (String.length s' <? S (String.length s')) with true
    by (symmetry; apply Nat.ltb_lt; lia).
  rewrite IH by lia. reflexivity.
Qed.

(** When what follows cannot do better from inside the run than from its
    end, the longest run is the one taken. *)
Lemma greedy_longest (k : cont R) (n : nat) :
  (forall p1 p2 g pre post,
      String.length (pre ++ post) <= n ->
      fst (span f pre) = pre -> pre <> EmptyString ->
      k p1 post g = None -> k p2 (pre ++ post)%string g = None) ->
  forall prev s g,
    String.length s <= n ->
    greedy f prev s g k
    = k (last_char prev (fst (span f s))) (snd (span f s)) g.
Proof.
  intros Hk prev s. revert prev.
  induction s as [|a s IH]; intros prev g Hn; cbn [greedy span]; [reflexivity|].
  destruct (f a) eqn:Fa; [|reflexivity].
  cbn [String.length] in Hn. rewrite IH by lia.
  pose proof (span_app f s) as Hs. pose proof (span_fst_fst f s) as Hp.
  destruct (span f s) as [pre post]. cbn [fst snd last_char] in *.
  destruct (k (last_char (Some a) pre) post g) eqn:Ek; [reflexivity|].
  rewrite Hs. apply (Hk (last_char (Some a) pre) prev g (String a pre) post).
  - cbn [append String.length]. rewrite <- Hs. lia.
  - cbn [span]. rewrite Fa. destruct (span f pre). cbn in *. now f_equal.
  - discriminate.
  - exact Ek.
Qed.
End Greedy.

Section Body.
Context {R : Type}.

(** One item of the body: a character that is no brace, or a pair of
    braces with no brace between them. *)
Lemma run_item fuel prev s g (k : cont R) :
  String.length s < fuel ->
  run fuel Complexity.body_item prev s g k
  = match s with
    | EmptyString => None
    | String a s' =>
        if Complexity.not_brace a then k (Some a) s' g
        else if Ascii.eqb a "{" then
          match snd (span Complexity.not_brace s') with
          | String c s3 => if Ascii.eqb c "}" then k (Some c) s3 g else None
          | EmptyString => None
          end
        else None
    end.
Proof.
  intros Hlen. unfold Complexity.body_item. rewrite run_Alt.
  rewrite run_Class, run_Seq. unfold Chr at 1. rewrite run_Class.
  destruct s as [|a s']; [reflexivity|].
  destruct (Complexity.not_brace a) eqn:Na.
  - apply not_brace_true in Na. destruct Na as [N1 N2].
    destruct (Ascii.eqb_spec "{" a) as [<-|_]; [contradiction|].
    destruct (k (Some a) s' g); reflexivity.
  - rewrite Ascii.eqb_sym. destruct (Ascii.eqb_spec a "{") as [->|N1]; [|reflexivity].
    rewrite run_Seq.
    cbn [String.length] in Hlen. rewrite run_star_class by lia.
    rewrite (greedy_longest _ _ (String.length s')); [ | | lia].
    + unfold Chr. rewrite run_Class.
      destruct (snd (span Complexity.not_brace s')) as [|c s3]; [reflexivity|].
      rewrite Ascii.eqb_sym. reflexivity.
    + intros p1 p2 g0 pre post _ Hpre Hne _. unfold Chr. rewrite run_Class.
      destruct pre as [|c pre]; [contradiction|]. cbn [append].
      cbn [span] in Hpre.
      destruct (Complexity.not_brace c) eqn:Nc; [|discriminate].
      apply not_brace_true in Nc. destruct Nc as [_ N2].
      destruct (Ascii.eqb_spec "}" c) as [<-|_]; [contradiction|reflexivity].
Qed.

(** The star of the body goes as far as [match_body], when what follows
    needs a closing brace. *)
Lemma star_item fuel : forall prev s g (k : cont R),
  needs_close k ->
  String.length s < fuel ->
  run fuel (Star Complexity.body_item) prev s g k
  = match match_body s false with
    | Some (body, rest) => k (last_char prev body) (String "}" rest) g
    | None => None
    end.
Proof.
  induction fuel as [|fuel IH]; intros prev s g k Hk Hlen; [lia|].
  rewrite run_Star, run_item by assumption.
  destruct s as [|a s']; cbn [match_body].
  { apply Hk. discriminate. }
  cbn [String.length] in Hlen.
  assert (Hlt : forall s3, String.length s3 <= String.length s' ->
                (String.length s3 <? String.length (String a s')) = true).
  { intros s3 H3. apply Nat.ltb_lt. cbn. lia. }
  destruct (Ascii.eqb_spec a "{") as [->|H1].
  - change (Complexity.not_brace "{") with false. cbv iota.
    rewrite match_body_inner.
    pose proof (span_length Complexity.not_brace s') as Hsl.
    destruct (span Complexity.not_brace s') as [pre q]. cbn [fst snd] in *.
    destruct q as [|c s3].
    { apply Hk. discriminate. }
    destruct (Ascii.eqb_spec c "}") as [->|Hc].
    2:{ apply Hk. discriminate. }
    cbn [String.length] in Hsl. rewrite Hlt by lia. rewrite IH by (assumption || lia).
    assert (Hno : k prev (String "{" s') g = None) by (apply Hk; discriminate).
    rewrite Hno.
    destruct (match_body s3 false) as [[b r]|].
    + rewrite push_all_some. cbn [push last_char].
      rewrite last_char_app. cbn [last_char].
      destruct (k (last_char (Some "}"%char) b) (String "}" r) g); reflexivity.
    + rewrite push_all_none. reflexivity.
  - destruct (Ascii.eqb_spec a "}") as [->|H2].
    + change (Complexity.not_brace "}") with false. reflexivity.
    + rewrite not_brace_other by assumption. rewrite Hlt by lia.
      rewrite IH by (assumption || lia).
      assert (Hno : k prev (String a s') g = None).
      { apply Hk. intros r E. injection E as E _. contradiction. }
      rewrite Hno.
      destruct (match_body s' false) as [[b r]|]; cbn [push last_char].
      * destruct (k (last_char (Some a) b) (String "}" r) g); reflexivity.
      * reflexivity.
Qed.
End Body.

Section Chain.
Context {R : Type} (k : cont R).
Hypothesis k_total : forall p s g, k p s g <> None.

Lemma run_body_then_close fuel prev s g :
  String.length s < fuel ->
  run fuel body_then_close prev s g k = tail_body k s g.
Proof.
  intros Hlen. unfold body_then_close, tail_body. rewrite run_Seq, run_Group.
  rewrite star_item; [| |assumption].
  - destruct (match_body s false) as [[body rest]|] eqn:E; [|reflexivity].
    apply match_body_iff in E. destruct E as [-> _].
    unfold Chr. rewrite run_Class, Ascii.eqb_refl.
    now rewrite consumed_app.
  - intros p s' g' Hs'. unfold Chr. rewrite run_Class.
    destruct s' as [|c r]; [reflexivity|].
    destruct (Ascii.eqb_spec "}" c) as [<-|]; [|reflexivity].
    now specialize (Hs' r).
Qed.

Lemma run_from_brace fuel prev s g :
  String.length s < fuel ->
  run fuel from_brace prev s g k = tail_brace k s g.
Proof.
  intros Hlen. unfold from_brace, tail_brace.
  rewrite run_Seq, run_star_class by assumption.
  rewrite (greedy_longest _ _ (String.length s)); [ | | lia].
  - pose proof (span_length Complexity.not_open s) as Hsl.
    pose proof (span_snd_head Complexity.not_open s) as Hhd.
    destruct (snd (span Complexity.not_open s)) as [|c s1].
    + rewrite run_Seq. unfold Chr. now rewrite run_Class.
    + specialize (Hhd c s1 eq_refl). unfold Complexity.not_open in Hhd.
      destruct (Ascii.eqb_spec c "{") as [->|]; [|discriminate].
      rewrite run_Seq. unfold Chr. rewrite run_Class, Ascii.eqb_refl.
      cbn [String.length] in Hsl. apply run_body_then_close. lia.
  - intros p1 p2 g0 pre post _ Hpre Hne _.
    rewrite run_Seq. unfold Chr. rewrite run_Class.
    destruct pre as [|c pre]; [contradiction|]. cbn [append].
    cbn [span] in Hpre. destruct (Complexity.not_open c) eqn:Nc; [|discriminate].
    unfold Complexity.not_open in Nc. rewrite Ascii.eqb_sym.
    now destruct (Ascii.eqb c "{").
Qed.

Lemma spec_body_none s g g' : tail_body k s g = None -> tail_body k s g' = None.
Proof.
  unfold tail_body. destruct (match_body s false) as [[b r]|]; [|reflexivity].
  intros H. now apply k_total in H.
Qed.

Lemma spec_brace_none s g g' : tail_brace k s g = None -> tail_brace k s g' = None.
Proof.
  unfold tail_brace. destruct (snd (span Complexity.not_open s)); [reflexivity|].
  apply spec_body_none.
Qed.

(** A shorter name leaves the rest of the word to [[^{]*]: what follows
    fails as it does after the whole word. *)
Lemma run_from_name fuel prev s g :
  String.length s < fuel ->
  run fuel from_name prev s g k = tail_name k s g.
Proof.
  intros Hlen. unfold from_name, tail_name, Plus.
  rewrite run_Seq, run_Group, run_Seq, run_Class.
  destruct s as [|a s0]; [reflexivity|]. cbn [span].
  destruct (isword a) eqn:Wa; [|reflexivity].
  cbn [String.length] in Hlen. rewrite run_star_class by lia.
  rewrite (greedy_longest _ _ (String.length s0)); [ | | lia].
  - pose proof (span_length isword s0) as Hsl.
    pose proof (span_app isword s0) as Happ.
    destruct (span isword s0) as [p q]. cbn [fst snd] in *.
    rewrite run_from_brace by lia.
    replace (consumed (String a s0) q) with (String a p); [reflexivity|].
    rewrite Happ. change (String a (p ++ q)) with (String a p ++ q)%string.
    now rewrite consumed_app.
  - intros p1 p2 g0 pre post Hn Hpre Hne.
    assert (String.length post < fuel) by (rewrite length_append in Hn; lia).
    rewrite !run_from_brace by lia.
    intros H0. apply (spec_brace_none _ ((3, consumed (String a s0) post) :: g0)).
    revert H0. unfold tail_brace.
    rewrite (span_prepend Complexity.not_open isword pre post isword_not_open Hpre).
    destruct (snd (span Complexity.not_open post)); [reflexivity|]. apply spec_body_none.
Qed.

Lemma spec_name_space c s g : isspace c = true -> tail_name k (String c s) g = None.
Proof.
  intros H. unfold tail_name. cbn [span]. now rewrite (isspace_not_word c H).
Qed.

Lemma run_from_fn fuel prev s g :
  String.length s < fuel ->
  run fuel from_fn prev s g k = tail_fn k s g.
Proof.
  intros Hlen. unfold from_fn, tail_fn. rewrite run_Seq, run_Str.
  destruct (drop_prefix "fn" s) as [s1|] eqn:E; [|reflexivity].
  apply drop_prefix_length in E. unfold Plus. rewrite !run_Seq, run_Class.
  destruct s1 as [|a s1']; [reflexivity|]. cbn [span].
  destruct (isspace a) eqn:Sa; [|reflexivity].
  cbn [String.length] in E. rewrite run_star_class by lia.
  rewrite (greedy_longest _ _ (String.length s1')); [ | | lia].
  - pose proof (span_length isspace s1') as Hsl.
    destruct (span isspace s1') as [p q]. cbn [fst snd] in *.
    apply run_from_name. lia.
  - intros p1 p2 g0 pre post Hn Hpre Hne _.
    rewrite run_from_name by lia.
    destruct pre as [|c pre]; [contradiction|]. cbn [append].
    cbn [span] in Hpre. destruct (isspace c) eqn:Sc; [|discriminate].
    now apply spec_name_space.
Qed.

(** An optional keyword in front of a tail that can start neither with a
    space nor with the keyword. *)
Lemma run_opt_keyword (n : nat) (kw : string) (tail : regex)
    (after : string -> groups -> option R) :
  (forall fuel prev s g, String.length s < fuel ->
                         run fuel tail prev s g k = after s g) ->
  (forall c s g, isspace c = true -> after (String c s) g = None) ->
  (forall s g, drop_prefix kw s <> None -> after s g = None) ->
  forall fuel prev s g,
    String.length s < fuel ->
    run fuel (Seq (Opt (Group n (Seq (Str kw) (Plus (Class isspace))))) tail) prev s g k
    = tail_opt n kw after s g.
Proof.
  intros Htail Hspace Hkw fuel prev s g Hlen. unfold tail_opt, Opt, Plus.
  rewrite run_Seq, run_Alt, run_Group, run_Seq, run_Str, run_Eps.
  rewrite (Htail fuel prev s g Hlen).
  destruct (drop_prefix kw s) as [s1|] eqn:E; [|reflexivity].
  pose proof (drop_prefix_length _ _ _ E) as Hs1.
  rewrite run_Seq, run_Class.
  destruct s1 as [|c r]; [reflexivity|].
  destruct (isspace c) eqn:Sc; [|reflexivity].
  cbn [String.length] in Hs1. rewrite run_star_class by lia.
  rewrite (greedy_longest _ _ (String.length r)); [ | | lia].
  - rewrite lstrip_span. pose proof (span_length isspace r) as Hsl.
    rewrite Htail by lia.
    destruct (after (snd (span isspace r)) _); [reflexivity|].
    apply Hkw. congruence.
  - intros p1 p2 g0 pre post Hn Hpre Hne _.
    rewrite Htail by lia.
    destruct pre as [|a pre]; [contradiction|]. cbn [append].
    cbn [span] in Hpre. destruct (isspace a) eqn:Sa; [|discriminate].
    now apply Hspace.
Qed.

Lemma spec_opt_keyword n kw (after : string -> groups -> option R) s g :
  exists g', tail_opt n kw after s g = after (opt_keyword kw s) g'.
Proof.
  unfold tail_opt, opt_keyword.
  destruct (drop_prefix kw s) as [[|c r]|]; try (now exists g).
  destruct (isspace c); [eexists; reflexivity|now exists g].
Qed.

Lemma spec_fn_other c s g : Ascii.eqb "f" c = false -> tail_fn k (String c s) g = None.
Proof. intros H. unfold tail_fn. cbn [drop_prefix]. now rewrite H. Qed.

Lemma run_from_async fuel prev s g :
  String.length s < fuel ->
  run fuel from_async prev s g k = tail_async k s g.
Proof.
  apply run_opt_keyword.
  - intros. now apply run_from_fn.
  - intros c s0 g0 Hc. apply spec_fn_other. now apply (space_not c).
  - intros s0 g0 H. destruct s0 as [|c s0]; [now destruct H|].
    apply spec_fn_other. cbn [drop_prefix] in H.
    destruct (Ascii.eqb_spec "a" c) as [<-|]; [reflexivity|now destruct H].
Qed.

Lemma spec_async_other c s g :
  Ascii.eqb "a" c = false -> Ascii.eqb "f" c = false ->
  tail_async k (String c s) g = None.
Proof.
  intros Ha Hf. unfold tail_async, tail_opt. cbn [drop_prefix]. rewrite Ha.
  now apply spec_fn_other.
Qed.

Lemma run_from_pub fuel prev s g :
  String.length s < fuel ->
  run fuel from_pub prev s g k = tail_pub k s g.
Proof.
  apply run_opt_keyword.
  - intros. now apply run_from_async.
  - intros c s0 g0 Hc. apply spec_async_other; now apply (space_not c).
  - intros s0 g0 H. destruct s0 as [|c s0]; [now destruct H|].
    cbn [drop_prefix] in H.
    destruct (Ascii.eqb_spec "p" c) as [<-|]; [|now destruct H].
    now apply spec_async_other.
Qed.

(** The backtracking matcher on the function pattern does what the scan
    [match_here] does. *)
Lemma run_function_pattern fuel prev s g :
  String.length s < fuel ->
  match match_here s with
  | Some (fn_name, fn_body, rest) =>
      exists g', run fuel Complexity.function_pattern prev s g k
                 = k (Some "}"%char) rest ((4, fn_body) :: (3, fn_name) :: g')
  | None => run fuel Complexity.function_pattern prev s g k = None
  end.
Proof.
  intros Hlen. change Complexity.function_pattern with from_pub.
  rewrite run_from_pub by assumption.
  unfold tail_pub, tail_async.
  destruct (spec_opt_keyword 1 "pub" (tail_opt 2 "async" (tail_fn k)) s g) as [g1 ->].
  destruct (spec_opt_keyword 2 "async" (tail_fn k) (opt_keyword "pub" s) g1) as [g2 ->].
  unfold match_here, match_signature, tail_fn.
  destruct (drop_prefix "fn" _) as [s1|]; [|reflexivity].
  destruct (span isspace s1) as [[|a sp] s2]; [reflexivity|].
  unfold tail_name. destruct (span isword s2) as [[|b nm] s3]; [reflexivity|].
  unfold tail_brace. destruct (span Complexity.not_open s3) as [skipped [|c s4]];
    [reflexivity|].
  cbn [snd]. unfold tail_body.
  destruct (match_body s4 false) as [[body rest]|]; [|reflexivity].
  now exists g2.
Qed.
End Chain.

(** A match of the function pattern at the start of a text is the match of
    the scan: the same name as group 3, the same body as group 4, the same
    text left. *)
Lemma match_at_function_pattern (prev : option ascii) (s : string) :
  match match_here s with
  | Some (fn_name, fn_body, rest) =>
      exists g, match_at Complexity.function_pattern prev s = Some (g, rest)
                /\ group 3 g = Some fn_name /\ group 4 g = Some fn_body
  | None => match_at Complexity.function_pattern prev s = None
  end.
Proof.
  unfold match_at.
  pose proof (run_function_pattern (fun _ s' g => Some (g, s'))
                ltac:(discriminate) (S (String.length s)) prev s []
                ltac:(lia)) as H.
  destruct (match_here s) as [[[n b] r]|]; [|exact H].
  destruct H as [g' H]. eexists. split; [exact H|]. split; reflexivity.
Qed.

Lemma match_at_function_pattern_iff (prev : option ascii)
    (s fn_name fn_body rest : string) :
  (exists g, match_at Complexity.function_pattern prev s = Some (g, rest)
             /\ group 3 g = Some fn_name /\ group 4 g = Some fn_body)
  <-> match_here s = Some (fn_name, fn_body, rest).
Proof.
  pose proof (match_at_function_pattern prev s) as H.
  destruct (match_here s) as [[[n b] r]|].
  - destruct H as (g0 & H0 & H3 & H4). split.
    + intros (g & Hg & G3 & G4). rewrite H0 in Hg. injection Hg as <- <-.
      congruence.
    + intros E. injection E as <- <- <-. now exists g0.
  - split; [|discriminate]. intros (g & Hg & _). congruence.
Qed.

(** C2 (as amended).  Only the classifier counts a depth line by line, and
    it does so from the first marker line of the window, when the braces of
    that line leave a depth other than zero.  Let the end of the marked scope
    be the first later line at which the depth counted from the marker line
    is back to zero.  A line after that end, with no marker on the lines from
    the end up to it, is classified as production code; a line before the
    end, or any line when there is no such end, is classified as test code
    if the depth at the line is positive.  The complexity analyzer counts
    no depth per line: its pattern matches with a given body exactly when
    the signature is followed by that body and a closing brace, the body
    comes back to depth zero, counted character by character, and has
    braces nested one deep at most. *)
Theorem scope_extent_by_script :
  (forall (lines : list string) (line_num i : nat),
      line_num < length lines ->
      first_marker lines line_num = Some i ->
      delta (nth i lines EmptyString) <> 0%Z ->
      (forall E, spec_scope_end lines i = Some E -> E < line_num ->
                 (forall k, E <= k < line_num ->
                            Unwraps.has_test_marker (nth k lines EmptyString) = false) ->
                 Unwraps.is_test_code lines line_num = Some false)
      /\ ((forall E, spec_scope_end lines i = Some E -> line_num < E) ->
          (0 < depth_between lines i line_num)%Z ->
          Unwraps.is_test_code lines line_num = Some true))
  /\
  (forall (prev : option ascii) (s fn_name fn_body rest : string),
      (exists m, Re.match_at Complexity.function_pattern prev s = Some (m, rest)
                 /\ Re.group 3 m = Some fn_name /\ Re.group 4 m = Some fn_body)
      <->
      exists s1, match_signature s = Some (fn_name, s1)
                 /\ s1 = (fn_body ++ String "}" rest)%string
                 /\ shallow 0 fn_body).
Proof.
  split.
  - intros lines line_num i Hlen Hm Hopen. split.
    + intros E HE Hlt _. now apply (is_test_code_after_end lines line_num i Hlen Hm E).
    + intros Hend Hpos.
      apply (proj2 (is_test_code_by_depth_rule lines line_num i Hlen Hm Hopen)).
      now split.
  - intros prev s fn_name fn_body rest.
    rewrite match_at_function_pattern_iff. apply match_here_iff.
Qed.

Lemma scope_extent_by_script_witness :
  Unwraps.is_test_code closed_test 4 = Some false
  /\ Unwraps.is_test_code plain_test 1 = Some true
  /\ ((exists m, Re.match_at Complexity.function_pattern None if_else_text
                 = Some (m, EmptyString)
                 /\ Re.group 3 m = Some "f" /\ Re.group 4 m = Some if_else_body)
      <->
      exists s1, match_signature if_else_text = Some ("f", s1)
                 /\ s1 = (if_else_body ++ String "}" EmptyString)%string
                 /\ shallow 0 if_else_body).
Proof.
  split; [|split].
  - assert (Hlen : 4 < length closed_test) by (vm_compute; lia).
    assert (Hopen : delta (nth 0 closed_test EmptyString) <> 0%Z)
      by (vm_compute; discriminate).
    apply (proj1 (proj1 scope_extent_by_script closed_test 4 0 Hlen eq_refl Hopen) 2).
    + reflexivity.
    + lia.
    + intros k Hk. destruct k as [|[|[|[|k]]]]; try lia; reflexivity.
  - assert (Hlen : 1 < length plain_test) by (vm_compute; lia).
    assert (Hopen : delta (nth 0 plain_test EmptyString) <> 0%Z)
      by (vm_compute; discriminate).
    apply (proj2 (proj1 scope_extent_by_script plain_test 1 0 Hlen eq_refl Hopen)).
    + intros E HE. vm_compute in HE. injection HE as <-. lia.
    + vm_compute. reflexivity.
  - apply (proj2 scope_extent_by_script None if_else_text "f" if_else_body EmptyString).
Defined.


(** C2 (as stated, refuted).  In [nested_text] the signature of [f] is on
    line 0 and, by the depth rule, its scope ends on line 4.  The pattern of
    the complexity analyzer matches the signature and then fails on the
    braces nested three deep: it finds no function in the text, and so no
    scope at all. *)
Lemma nested_scope_is_not_extracted :
  spec_scope_end (splitlines_keepends nested_text) 0 = Some 4
  /\ (exists s1, match_signature nested_text = Some ("f", s1))
  /\ Re.finditer Complexity.function_pattern nested_text = []
  /\ Complexity.finditer nested_text = [].
Proof.
  split; [reflexivity|]. split; [|split; reflexivity].
  eexists. reflexivity.
Qed.

(** Where a later marker of the window opens a scope of its own, the
    classifier still lets the first marker decide: in [two_tests] the first
    test function ends on line 1, the second one starts on line 2 and holds
    line 3, and line 3 is classified as production code.  The amended C2
    says nothing about such a line. *)
Remark later_marker_is_not_consulted :
  first_marker two_tests 3 = Some 0
  /\ spec_scope_end two_tests 0 = Some 1
  /\ Unwraps.has_test_marker (nth 2 two_tests EmptyString) = true
  /\ spec_scope_end two_tests 2 = Some 4
  /\ Unwraps.is_test_code two_tests 3 = Some false.
Proof. repeat split; vm_compute; reflexivity. Qed.

(** ** Python's sort: ordered, a permutation, and stable *)

Section StableSort.
Context {A : Type} (key : A -> Z).

Lemma insert_desc_perm (x : A) (l : list A) : Permutation (insert_desc key x l) (x :: l).
Proof.
  induction l as [|y l IH]; simpl; [reflexivity|].
  destruct (key y <=? key x)%Z; [reflexivity|].
  rewrite IH. apply perm_swap.
Qed.

Lemma sort_reverse_perm (l : list A) : Permutation (sort_reverse key l) l.
Proof.
  induction l as [|x l IH]; simpl; [reflexivity|].
  rewrite insert_desc_perm. now constructor.
Qed.

Lemma insert_desc_sorted (x : A) (l : list A) :
  StronglySorted (desc key) l -> StronglySorted (desc key) (insert_desc key x l).
Proof.
  induction 1 as [|y l Hs IH Hall]; simpl.
  - repeat constructor.
  - destruct (key y <=? key x)%Z eqn:E.
    + apply Z.leb_le in E. constructor; [now constructor|].
      constructor; [exact E|].
      eapply Forall_impl; [|exact Hall]. unfold desc. intros z Hz. lia.
    + apply Z.leb_gt in E. constructor; [exact IH|].
      apply (Permutation_Forall (Permutation_sym (insert_desc_perm x l))).
      constructor; [unfold desc; lia|exact Hall].
Qed.

Lemma sort_reverse_sorted (l : list A) : StronglySorted (desc key) (sort_reverse key l).
Proof.
  induction l as [|x l IH]; simpl; [constructor|]. now apply insert_desc_sorted.
Qed.

Lemma insert_desc_stable (k : Z) (x : A) (l : list A) :
  filter (has_key key k) (insert_desc key x l) = filter (has_key key k) (x :: l).
Proof.
  induction l as [|y l IH]; [reflexivity|]. cbn [insert_desc].
  destruct (key y <=? key x)%Z eqn:E; [reflexivity|].
  apply Z.leb_gt in E. cbn [filter] in *. rewrite IH. unfold has_key.
  destruct (Z.eqb_spec (key x) k), (Z.eqb_spec (key y) k); try reflexivity. lia.
Qed.

(** Elements with the same key keep the order they had. *)
Lemma sort_reverse_stable (k : Z) (l : list A) :
  filter (has_key key k) (sort_reverse key l) = filter (has_key key k) l.
Proof.
  induction l as [|x l IH]; [reflexivity|].
  cbn [sort_reverse fold_right]. fold (sort_reverse key l).
  rewrite insert_desc_stable. cbn [filter]. now rewrite IH.
Qed.

Lemma insert_asc_perm (x : A) (l : list A) : Permutation (insert_asc key x l) (x :: l).
Proof.
  induction l as [|y l IH]; simpl; [reflexivity|].
  destruct (key x <=? key y)%Z; [reflexivity|].
  rewrite IH. apply perm_swap.
Qed.

Lemma sorted_perm (l : list A) : Permutation (sorted key l) l.
Proof.
  induction l as [|x l IH]; simpl; [reflexivity|].
  rewrite insert_asc_perm. now constructor.
Qed.

Lemma insert_asc_sorted (x : A) (l : list A) :
  StronglySorted (asc key) l -> StronglySorted (asc key) (insert_asc key x l).
Proof.
  induction 1 as [|y l Hs IH Hall]; simpl.
  - repeat constructor.
  - destruct (key x <=? key y)%Z eqn:E.
    + apply Z.leb_le in E. constructor; [now constructor|].
      constructor; [exact E|].
      eapply Forall_impl; [|exact Hall]. unfold asc. intros z Hz. lia.
    + apply Z.leb_gt in E. constructor; [exact IH|].
      apply (Permutation_Forall (Permutation_sym (insert_asc_perm x l))).
      constructor; [unfold asc; lia|exact Hall].
Qed.

Lemma sorted_sorted (l : list A) : StronglySorted (asc key) (sorted key l).
Proof.
  induction l as [|x l IH]; simpl; [constructor|]. now apply insert_asc_sorted.
Qed.

Lemma insert_asc_stable (k : Z) (x : A) (l : list A) :
  filter (has_key key k) (insert_asc key x l) = filter (has_key key k) (x :: l).
Proof.
  induction l as [|y l IH]; [reflexivity|]. cbn [insert_asc].
  destruct (key x <=? key y)%Z eqn:E; [reflexivity|].
  apply Z.leb_gt in E. cbn [filter] in *. rewrite IH. unfold has_key.
  destruct (Z.eqb_spec (key x) k), (Z.eqb_spec (key y) k); try reflexivity. lia.
Qed.

Lemma sorted_stable (k : Z) (l : list A) :
  filter (has_key key k) (sorted key l) = filter (has_key key k) l.
Proof.
  induction l as [|x l IH]; [reflexivity|].
  cbn [sorted fold_right]. fold (sorted key l).
  rewrite insert_asc_stable. cbn [filter]. now rewrite IH.
Qed.
End StableSort.

(** ** Grouping by file *)

Lemma in_first_seen (x : string) (l : list string) : In x (first_seen l) <-> In x l.
Proof.
  induction l as [|y l IH]; [reflexivity|]. cbn [first_seen In].
  rewrite filter_In, IH. split.
  - intros [H|[H _]]; [now left|now right].
  - intros [H|H]; [now left|].
    destruct (String.eqb_spec x y) as [->|Hne]; [now left|]. right. now split.
Qed.

Lemma NoDup_first_seen (l : list string) : NoDup (first_seen l).
Proof.
  induction l as [|y l IH]; cbn [first_seen]; constructor.
  - rewrite filter_In. intros [_ H]. now rewrite String.eqb_refl in H.
  - now apply NoDup_filter.
Qed.

Lemma first_seen_snoc (l : list string) (k : string) :
  first_seen (l ++ [k])
  = if existsb (String.eqb k) l then first_seen l else first_seen l ++ [k].
Proof.
  induction l as [|y l IH]; [reflexivity|].
  cbn [app first_seen existsb]. rewrite IH.
  destruct (String.eqb_spec k y) as [->|Hne]; cbn [orb].
  - destruct (existsb (String.eqb y) l); [reflexivity|].
    rewrite filter_app. cbn [filter]. rewrite String.eqb_refl. cbn [negb].
    now rewrite app_nil_r.
  - destruct (existsb (String.eqb k) l); [reflexivity|].
    rewrite filter_app. cbn [filter].
    destruct (String.eqb_spec k y); [contradiction|]. reflexivity.
Qed.

Lemma existsb_eqb_in (k : string) (l : list string) :
  existsb (String.eqb k) l = true <-> In k l.
Proof.
  rewrite existsb_exists. split.
  - intros (x & Hx & E). apply String.eqb_eq in E. now subst.
  - intros H. exists k. split; [assumption|apply String.eqb_refl].
Qed.

Lemma append_at_map {V : Type} (g : string -> list V) (k : string) (v : V)
    (keys : list string) :
  NoDup keys ->
  append_at k v (map (fun f => (f, g f)) keys)
  = if existsb (String.eqb k) keys
    then map (fun f => (f, if String.eqb k f then g f ++ [v] else g f)) keys
    else map (fun f => (f, g f)) keys ++ [(k, [v])].
Proof.
  induction 1 as [|a keys Ha Hnd IH]; [reflexivity|].
  cbn [map append_at existsb].
  destruct (String.eqb_spec k a) as [->|Hne]; cbn [orb].
  - f_equal. apply map_ext_in. intros f Hf.
    destruct (String.eqb_spec a f) as [->|]; [contradiction|reflexivity].
  - rewrite IH. destruct (existsb (String.eqb k) keys); reflexivity.
Qed.

Section ByFile.
Import Complexity.

Lemma by_file_snoc (high : list finding) (x : finding) :
  by_file (high ++ [x]) = append_at (path_of x) (fst x) (by_file high).
Proof. unfold by_file. now rewrite fold_left_app. Qed.

Lemma functions_of_snoc (high : list finding) (x : finding) (f : string) :
  functions_of (high ++ [x]) f
  = functions_of high f ++ (if String.eqb (path_of x) f then [x] else []).
Proof. unfold functions_of. rewrite filter_app. reflexivity. Qed.

Lemma functions_of_absent (high : list finding) (f : string) :
  ~ In f (map path_of high) -> functions_of high f = [].
Proof.
  intros H. unfold functions_of.
  induction high as [|y high IH]; [reflexivity|]. cbn [filter]. unfold from_file at 1.
  destruct (String.eqb_spec (path_of y) f) as [E|_].
  - exfalso. apply H. left. exact E.
  - apply IH. intros Hin. apply H. now right.
Qed.

(** [by_file] lists the files in the order in which [high] first names
    them, each with its functions in the order of [high]. *)
Lemma by_file_grouped (high : list finding) : by_file high = grouped high.
Proof.
  induction high as [|x high IH] using rev_ind; [reflexivity|].
  rewrite by_file_snoc, IH. unfold grouped.
  rewrite append_at_map by apply NoDup_first_seen.
  rewrite map_app. cbn [map]. rewrite first_seen_snoc.
  destruct (existsb (String.eqb (path_of x)) (first_seen (map path_of high))) eqn:E1;
    destruct (existsb (String.eqb (path_of x)) (map path_of high)) eqn:E2.
  - apply map_ext. intros f. rewrite functions_of_snoc, map_app.
    destruct (String.eqb (path_of x) f); [reflexivity|].
    cbn [map]. now rewrite app_nil_r.
  - apply (proj1 (existsb_eqb_in _ _)) in E1.
    apply (proj1 (in_first_seen _ _)) in E1.
    apply (proj2 (existsb_eqb_in _ _)) in E1. congruence.
  - apply (proj1 (existsb_eqb_in _ _)) in E2.
    apply (proj2 (in_first_seen _ _)) in E2.
    apply (proj2 (existsb_eqb_in _ _)) in E2. congruence.
  - rewrite map_app. cbn [map]. f_equal.
    + apply map_ext_in. intros f Hf. rewrite functions_of_snoc, map_app.
      destruct (String.eqb_spec (path_of x) f) as [<-|_].
      * apply (proj2 (existsb_eqb_in _ _)) in Hf. congruence.
      * cbn [map]. now rewrite app_nil_r.
    + rewrite functions_of_snoc, String.eqb_refl, functions_of_absent; [reflexivity|].
      intros Hin. apply (proj2 (existsb_eqb_in _ _)) in Hin. congruence.
Qed.
End ByFile.

(** ** The file view *)

Lemma filter_map_swap {A B : Type} (f : A -> B) (q : B -> bool) (l : list A) :
  filter q (map f l) = map f (filter (fun x => q (f x)) l).
Proof.
  induction l as [|x l IH]; [reflexivity|]. cbn [map filter].
  destruct (q (f x)); cbn [map]; now rewrite IH.
Qed.

Lemma StronglySorted_weaken {A : Type} (R R' : A -> A -> Prop) (l : list A) :
  (forall a b, R a b -> R' a b) -> StronglySorted R l -> StronglySorted R' l.
Proof.
  intros Himp. induction 1 as [|x l Hs IH Hall]; constructor; [assumption|].
  eapply Forall_impl; [|exact Hall]. intros b. apply Himp.
Qed.

Section FileView.
Import Complexity.
Variable high : list finding.

Lemma summarise_grouped : map summarise (by_file high)
                          = map (row high) (first_seen (map path_of high)).
Proof.
  rewrite by_file_grouped. unfold grouped. rewrite map_map.
  apply map_ext. intros f. unfold summarise, row, file_total, file_count.
  cbn [fst snd]. rewrite map_map, length_map. reflexivity.
Qed.

Lemma file_complexities_eq :
  file_complexities high
  = sort_reverse total_key (map (row high) (first_seen (map path_of high))).
Proof. unfold file_complexities. now rewrite summarise_grouped. Qed.

Lemma file_complexities_rows (x : file_line) :
  In x (file_complexities high) ->
  In (fst (fst x)) (map path_of high) /\ x = row high (fst (fst x)).
Proof.
  rewrite file_complexities_eq. intros H.
  apply (Permutation_in _ (sort_reverse_perm total_key _)) in H.
  apply in_map_iff in H. destruct H as (f & <- & Hf).
  split; [now apply in_first_seen|reflexivity].
Qed.

Lemma file_complexities_paths :
  Permutation (map (fun x => fst (fst x)) (file_complexities high))
              (first_seen (map path_of high)).
Proof.
  rewrite file_complexities_eq.
  rewrite (Permutation_map _ (sort_reverse_perm total_key _)).
  rewrite map_map. cbn [row fst]. now rewrite map_id.
Qed.

Lemma file_complexities_sorted :
  StronglySorted (fun a b => total_of b <= total_of a) (file_complexities high).
Proof.
  apply (StronglySorted_weaken (desc total_key)).
  - unfold desc, total_key. intros a b. lia.
  - rewrite file_complexities_eq. apply sort_reverse_sorted.
Qed.

(** Files with the same total stand in the order in which [high] first
    names them. *)
Lemma file_complexities_ties (t : nat) :
  map (fun x => fst (fst x))
      (filter (fun x => total_of x =? t) (file_complexities high))
  = filter (fun f => file_total high f =? t) (first_seen (map path_of high)).
Proof.
  rewrite (filter_ext _ (has_key total_key (Z.of_nat t))).
  2:{ intros x. unfold has_key, total_key.
      eqb_agree. }
  rewrite file_complexities_eq, sort_reverse_stable, filter_map_swap, map_map.
  cbn [row fst]. rewrite map_id. apply filter_ext. intros f.
  unfold has_key, total_key, row, total_of. cbn [fst snd].
  eqb_agree.
Qed.
End FileView.

Section UnwrapRanking.
Import Unwraps.
Variable d : dict (list (nat * string)).

Lemma ranked_eq : ranked d = firstn 10 (sorted count_key d).
Proof. reflexivity. Qed.

Lemma by_count_sorted :
  StronglySorted (fun a b => length (snd b) <= length (snd a)) (sorted count_key d).
Proof.
  apply (StronglySorted_weaken (asc count_key)).
  - unfold asc, count_key. intros a b. lia.
  - apply sorted_sorted.
Qed.

(** Files with the same number of findings keep the order of the
    dictionary, which is the order in which they were first entered. *)
Lemma by_count_ties (n : nat) :
  filter (fun x => length (snd x) =? n) (sorted count_key d)
  = filter (fun x => length (snd x) =? n) d.
Proof.
  assert (E : forall x : string * list (nat * string),
             (length (snd x) =? n) = has_key count_key (- Z.of_nat n)%Z x).
  { intros x. unfold has_key, count_key.
    eqb_agree. }
  rewrite !(filter_ext _ _ E). apply sorted_stable.
Qed.
End UnwrapRanking.

(** C7 (as amended).  In the file view of the complexity report every file
    with a reported function has one line, with the sum of the complexities
    of its reported functions and their number; the lines are in descending
    order of total, and lines with the same total stand in the order in
    which the sorted list of functions first names their files, whatever
    their counts.  The files of the risky-call report are in descending
    order of their number of findings, files with the same number in the
    order in which they were entered. *)
Theorem file_view_order (high : list Complexity.finding)
    (d : dict (list (nat * string))) :
  (forall x, In x (Complexity.file_complexities high) ->
             Complexity.total_of x = file_total high (fst (fst x))
             /\ Complexity.count_of x = file_count high (fst (fst x)))
  /\ Permutation (map (fun x => fst (fst x)) (Complexity.file_complexities high))
                 (first_seen (map Complexity.path_of high))
  /\ StronglySorted (fun a b => Complexity.total_of b <= Complexity.total_of a)
                    (Complexity.file_complexities high)
  /\ (forall t,
         map (fun x => fst (fst x))
             (filter (fun x => Complexity.total_of x =? t)
                     (Complexity.file_complexities high))
         = filter (fun f => file_total high f =? t)
                  (first_seen (map Complexity.path_of high)))
  /\ (exists all,
         Unwraps.ranked d = firstn 10 all
         /\ Permutation all d
         /\ StronglySorted (fun a b => length (snd b) <= length (snd a)) all
         /\ forall n, filter (fun x => length (snd x) =? n) all
                      = filter (fun x => length (snd x) =? n) d).
Proof.
  split; [|split; [|split; [|split]]].
  - intros x Hx. apply file_complexities_rows in Hx. destruct Hx as [_ Hx].
    rewrite Hx at 1 3. split; reflexivity.
  - apply file_complexities_paths.
  - apply file_complexities_sorted.
  - apply file_complexities_ties.
  - exists (sorted count_key d). split; [apply ranked_eq|].
    split; [apply sorted_perm|]. split; [apply by_count_sorted|apply by_count_ties].
Qed.

(** C7 (as stated, refuted).  [src/a.rs] has one function of complexity 22
    and [src/b.rs] two of complexity 11.  The totals are equal and the second
    file has more functions, yet the first file comes first. *)
Lemma equal_totals_are_not_ranked_by_count :
  Complexity.main fs_tie walk_tie
  = Some {| Complexity.found := 3;
            Complexity.top_functions :=
              [(1, "a", 22, "a.rs"); (2, "b1", 11, "b.rs"); (3, "b2", 11, "b.rs")];
            Complexity.top_files := [("a.rs", 22, 1); ("b.rs", 22, 2)] |}
  /\ ~ ties_by_count [("a.rs", 22, 1); ("b.rs", 22, 2)].
Proof.
  split; [reflexivity|].
  intros H. specialize (H 0 1 ("a.rs", 22, 1) ("b.rs", 22, 2)).
  unfold Complexity.total_of, Complexity.count_of in H. cbn in H.
  specialize (H ltac:(lia) eq_refl eq_refl eq_refl). lia.
Qed.

(** ** A run over several files *)

Lemma in_setitem_same {V : Type} (k : string) (v : V) (d : dict V) :
  In (k, v) (setitem k v d).
Proof.
  induction d as [|[k' v'] d IH]; cbn [setitem]; [now left|].
  destruct (String.eqb k k'); [now left|now right].
Qed.

Lemma in_setitem_other {V : Type} (k k' : string) (v v' : V) (d : dict V) :
  k <> k' -> In (k', v') d -> In (k', v') (setitem k v d).
Proof.
  intros Hne. induction d as [|[k0 v0] d IH]; cbn [setitem]; [intros []|].
  intros [H|H].
  - injection H as -> ->.
    destruct (String.eqb_spec k k'); [contradiction|now left].
  - destruct (String.eqb k k0); right; [assumption|now apply IH].
Qed.

Section OneRun.
Import Unwraps.
Variable fs : filesystem.

Lemma find_unwraps_unreadable (bad : string) :
  fs bad = None -> find_unwraps fs bad = [].
Proof. unfold find_unwraps. now intros ->. Qed.

Lemma collect_skips (before after : list string) (bad : string)
    (d : dict (list (nat * string))) :
  fs bad = None ->
  collect fs (before ++ bad :: after) d = collect fs (before ++ after) d.
Proof.
  intros Hbad. revert d.
  induction before as [|p before IH]; intros d; cbn [app collect].
  - now rewrite find_unwraps_unreadable.
  - destruct (find_unwraps fs p); apply IH.
Qed.

Lemma collect_keeps (files : list string) (p : string)
    (d : dict (list (nat * string))) :
  In (p, find_unwraps fs p) d -> In (p, find_unwraps fs p) (collect fs files d).
Proof.
  revert d. induction files as [|q files IH]; intros d Hin; cbn [collect];
    [assumption|].
  destruct (find_unwraps fs q) as [|u us] eqn:E; [now apply IH|].
  apply IH. destruct (String.eqb_spec q p) as [->|Hne].
  - rewrite E. apply in_setitem_same.
  - now apply in_setitem_other.
Qed.

Lemma collect_enters (files : list string) (p : string)
    (d : dict (list (nat * string))) :
  In p files -> find_unwraps fs p <> [] ->
  In (p, find_unwraps fs p) (collect fs files d).
Proof.
  revert d. induction files as [|q files IH]; intros d Hin Hne; [destruct Hin|].
  cbn [collect]. destruct Hin as [->|Hin].
  - destruct (find_unwraps fs p) as [|u us] eqn:E; [congruence|].
    rewrite <- E. apply collect_keeps. rewrite E. apply in_setitem_same.
  - destruct (find_unwraps fs q); now apply IH.
Qed.

Lemma files_to_check_app (l1 l2 : list string) :
  files_to_check (l1 ++ l2) = files_to_check l1 ++ files_to_check l2.
Proof. apply filter_app. Qed.
End OneRun.

Section TwoRuns.
Variables fs1 fs2 : filesystem.

Lemma find_unwraps_same (p : string) :
  fs1 p = fs2 p -> Unwraps.find_unwraps fs1 p = Unwraps.find_unwraps fs2 p.
Proof. unfold Unwraps.find_unwraps. now intros ->. Qed.

Lemma collect_same_findings (files : list string) (d : dict (list (nat * string))) :
  (forall p, In p files -> Unwraps.find_unwraps fs1 p = Unwraps.find_unwraps fs2 p) ->
  Unwraps.collect fs1 files d = Unwraps.collect fs2 files d.
Proof.
  revert d. induction files as [|q files IH]; intros d H; [reflexivity|].
  cbn [Unwraps.collect]. rewrite (H q) by now left.
  destruct (Unwraps.find_unwraps fs2 q) as [|u us];
    apply IH; intros p Hp; apply H; now right.
Qed.

Lemma collect_same (files : list string) (d : dict (list (nat * string))) :
  (forall p, In p files -> fs1 p = fs2 p) ->
  Unwraps.collect fs1 files d = Unwraps.collect fs2 files d.
Proof.
  intros H. apply collect_same_findings. intros p Hp.
  apply find_unwraps_same. now apply H.
Qed.

Lemma scan_files_same (root : string) (files : list string)
    (high : list Complexity.finding) :
  (forall p, In p (map (path_join root) (filter (endswith ".rs") files)) ->
             fs1 p = fs2 p) ->
  Complexity.scan_files fs1 root files high = Complexity.scan_files fs2 root files high.
Proof.
  revert high. induction files as [|f files IH]; intros high H; [reflexivity|].
  cbn [Complexity.scan_files]. cbn [filter] in H.
  destruct (endswith ".rs" f).
  - unfold Complexity.analyze_rust_file.
    rewrite (H (path_join root f)) by now left.
    destruct (fs2 (path_join root f)); [|reflexivity].
    apply IH. intros p Hp. apply H. now right.
  - now apply IH.
Qed.

Lemma scan_walk_same (walk : list (string * list string))
    (high : list Complexity.finding) :
  (forall p, In p (candidates walk) -> fs1 p = fs2 p) ->
  Complexity.scan_walk fs1 walk high = Complexity.scan_walk fs2 walk high.
Proof.
  revert high. induction walk as [|[root files] walk IH]; intros high H;
    [reflexivity|].
  cbn [Complexity.scan_walk]. unfold candidates in H. cbn [flat_map fst snd] in H.
  destruct (contains "tests" root || contains "test" root).
  - apply IH. exact H.
  - rewrite (scan_files_same root files high)
      by (intros p Hp; apply H, in_or_app; now left).
    destruct (Complexity.scan_files fs2 root files high); [|reflexivity].
    apply IH. intros p Hp. apply H, in_or_app. now right.
Qed.
End TwoRuns.

Lemma find_unwraps_empty_file (fs : filesystem) (bad p : string) :
  fs bad = None ->
  Unwraps.find_unwraps fs p = Unwraps.find_unwraps (with_file fs bad EmptyString) p.
Proof.
  intros Hbad. unfold Unwraps.find_unwraps, with_file.
  destruct (String.eqb_spec p bad) as [->|_]; [|reflexivity].
  now rewrite Hbad.
Qed.

(** C6 (as amended).  In the risky-call run a file whose reading fails is
    skipped and the run goes on: the file has no findings, the findings
    collected and the report are those of the run without it, and every
    other file that has findings is entered with all of them.  No count of
    skipped files is kept: the report is the one of a run in which the file
    is readable and empty. *)
Theorem unreadable_file_is_skipped (fs : filesystem) (before after : list string)
    (bad : string) :
  fs bad = None ->
  Unwraps.find_unwraps fs bad = []
  /\ Unwraps.production_unwraps fs (before ++ bad :: after)
     = Unwraps.production_unwraps fs (before ++ after)
  /\ Unwraps.main fs (before ++ bad :: after) = Unwraps.main fs (before ++ after)
  /\ (forall p, In p (before ++ after) -> Unwraps.find_unwraps fs p <> [] ->
                In (p, Unwraps.find_unwraps fs p)
                   (Unwraps.production_unwraps fs (before ++ bad :: after)))
  /\ Unwraps.main fs (before ++ bad :: after)
     = Unwraps.main (with_file fs bad EmptyString) (before ++ bad :: after).
Proof.
  intros Hbad. split; [now apply find_unwraps_unreadable|].
  split; [now apply collect_skips|]. split; [|split].
  - unfold Unwraps.main, Unwraps.production_unwraps. f_equal.
    rewrite !files_to_check_app. change (bad :: after) with ([bad] ++ after).
    rewrite files_to_check_app.
    unfold Unwraps.files_to_check at 2. cbn [filter].
    destruct (negb (contains "_test.rs" bad) && negb (contains "/tests/" bad));
      [|reflexivity].
    now apply collect_skips.
  - intros p Hp Hne. unfold Unwraps.production_unwraps.
    rewrite collect_skips by assumption. now apply collect_enters.
  - unfold Unwraps.main, Unwraps.production_unwraps. f_equal.
    apply collect_same_findings. intros p _. now apply find_unwraps_empty_file.
Qed.

Lemma unreadable_file_is_skipped_witness :
  Unwraps.find_unwraps fs_unreadable "src/bad.rs" = []
  /\ Unwraps.production_unwraps fs_unreadable ([] ++ "src/bad.rs" :: ["src/good.rs"])
     = Unwraps.production_unwraps fs_unreadable ([] ++ ["src/good.rs"])
  /\ Unwraps.main fs_unreadable ([] ++ "src/bad.rs" :: ["src/good.rs"])
     = Unwraps.main fs_unreadable ([] ++ ["src/good.rs"])
  /\ (forall p, In p ([] ++ ["src/good.rs"]) ->
                Unwraps.find_unwraps fs_unreadable p <> [] ->
                In (p, Unwraps.find_unwraps fs_unreadable p)
                   (Unwraps.production_unwraps fs_unreadable
                      ([] ++ "src/bad.rs" :: ["src/good.rs"])))
  /\ Unwraps.main fs_unreadable ([] ++ "src/bad.rs" :: ["src/good.rs"])
     = Unwraps.main (with_file fs_unreadable "src/bad.rs" EmptyString)
                    ([] ++ "src/bad.rs" :: ["src/good.rs"]).
Proof.
  apply (unreadable_file_is_skipped fs_unreadable [] ["src/good.rs"] "src/bad.rs").
  reflexivity.
Defined.

(** C6 (as stated, refuted).  [src/bad.rs] cannot be read.  The complexity
    run over it and [src/good.rs] ends with the exception, in whichever
    order the two files come, and reports nothing, although [src/good.rs]
    alone has a function to report.  The risky-call run goes on, and its
    report is the same as when [src/bad.rs] is readable and empty: it counts
    no skipped file. *)
Lemma read_failure_ends_the_complexity_run :
  fs_unreadable "src/bad.rs" = None
  /\ Complexity.main fs_unreadable [("src", ["bad.rs"; "good.rs"])] = None
  /\ Complexity.main fs_unreadable [("src", ["good.rs"; "bad.rs"])] = None
  /\ Complexity.main fs_unreadable [("src", ["good.rs"])]
     = Some {| Complexity.found := 1;
               Complexity.top_functions := [(1, "g", 12, "good.rs")];
               Complexity.top_files := [("good.rs", 12, 1)] |}
  /\ Unwraps.main fs_unreadable ["src/bad.rs"; "src/good.rs"]
     = Unwraps.main fs_empty ["src/bad.rs"; "src/good.rs"].
Proof. repeat split; reflexivity. Qed.

(** ** Two runs over the same files *)

Lemma high_complexity_functions_ties (fs : filesystem)
    (walk : list (string * list string)) (found : list Complexity.finding) :
  Complexity.scan_walk fs walk [] = Some found ->
  exists high,
    Complexity.high_complexity_functions fs walk = Some high
    /\ Permutation high found
    /\ StronglySorted (fun a b => Complexity.complexity_of b <= Complexity.complexity_of a)
                      high
    /\ forall c, filter (fun x => Complexity.complexity_of x =? c) high
                 = filter (fun x => Complexity.complexity_of x =? c) found.
Proof.
  intros Hscan. unfold Complexity.high_complexity_functions. rewrite Hscan.
  set (key := fun x : Complexity.finding => Z.of_nat (Complexity.complexity_of x)).
  exists (sort_reverse key found). split; [reflexivity|].
  split; [apply sort_reverse_perm|]. split.
  - apply (StronglySorted_weaken (desc key)); [|apply sort_reverse_sorted].
    unfold desc, key. intros a b. lia.
  - intros c.
    assert (E : forall x : Complexity.finding,
               (Complexity.complexity_of x =? c) = has_key key (Z.of_nat c) x).
    { intros x. unfold has_key, key.
      eqb_agree. }
    rewrite !(filter_ext _ _ E). apply sort_reverse_stable.
Qed.

(** ** Texts: prefixes, occurrences and trimming *)











(** ** The findings of a file *)






(** ** The classifier at the edges of a file *)














(** ** The dictionary of the risky-call run *)

Lemma setitem_map {V : Type} (g : string -> V) (k : string) (keys : list string) :
  setitem k (g k) (map (fun f => (f, g f)) keys)
  = if existsb (String.eqb k) keys then map (fun f => (f, g f)) keys
    else map (fun f => (f, g f)) keys ++ [(k, g k)].
Proof.
  induction keys as [|a keys IH]; [reflexivity|].
  cbn [map setitem existsb].
  destruct (String.eqb_spec k a) as [->|Hne]; cbn [orb]; [reflexivity|].
  rewrite IH. destruct (existsb (String.eqb k) keys); reflexivity.
Qed.



Section Collected.
Import Unwraps.
Variable fs : filesystem.

Lemma collect_map (files done : list string) :
  collect fs files
    (map (fun p => (p, find_unwraps fs p)) (first_seen (filter (has_findings fs) done)))
  = map (fun p => (p, find_unwraps fs p))
        (first_seen (filter (has_findings fs) (done ++ files))).
Proof.
  revert done. induction files as [|q files IH]; intros done; cbn [collect].
  - now rewrite app_nil_r.
  - destruct (find_unwraps fs q) as [|u us] eqn:E.
    + assert (Hq : has_findings fs q = false) by (unfold has_findings; now rewrite E).
      rewrite IH, !filter_app. cbn [filter]. now rewrite Hq.
    + assert (Hq : has_findings fs q = true) by (unfold has_findings; now rewrite E).
      rewrite <- E, (setitem_map (find_unwraps fs)).
      transitivity
        (collect fs files
           (map (fun p => (p, find_unwraps fs p))
                (first_seen (filter (has_findings fs) (done ++ [q]))))).
      * f_equal. rewrite filter_app. cbn [filter]. rewrite Hq, first_seen_snoc.
        destruct (existsb (String.eqb q) (first_seen (filter (has_findings fs) done)))
          eqn:E1;
          destruct (existsb (String.eqb q) (filter (has_findings fs) done)) eqn:E2.
        -- reflexivity.
        -- apply (proj1 (existsb_eqb_in _ _)) in E1.
           apply (proj1 (in_first_seen _ _)) in E1.
           apply (proj2 (existsb_eqb_in _ _)) in E1. congruence.
        -- apply (proj1 (existsb_eqb_in _ _)) in E2.
           apply (proj2 (in_first_seen _ _)) in E2.
           apply (proj2 (existsb_eqb_in _ _)) in E2. congruence.
        -- now rewrite map_app.
      * rewrite IH, <- app_assoc. reflexivity.
Qed.

Lemma production_unwraps_eq (files : list string) :
  production_unwraps fs files
  = map (fun p => (p, find_unwraps fs p)) (first_seen (filter (has_findings fs) files)).
Proof. apply (collect_map files []). Qed.


End Collected.






(** ** The size of the risky-call report *)








(** ** The functions that the complexity run reports *)

Section Reported.
Import Complexity.
Variable fs : filesystem.


Lemma scan_files_eq (root : string) (files : list string) (high : list finding) :
  scan_files fs root files high
  = if forallb (readable fs) (map (path_join root) (filter (endswith ".rs") files))
    then Some (high ++ flat_map (findings_of fs)
                         (map (path_join root) (filter (endswith ".rs") files)))
    else None.
Proof.
  revert high. induction files as [|f files IH]; intros high;
    cbn [scan_files filter map forallb flat_map].
  - now rewrite app_nil_r.
  - destruct (endswith ".rs" f); [|apply IH]. cbn [map forallb flat_map].
    unfold analyze_rust_file, readable at 1, findings_of at 1.
    destruct (fs (path_join root f)) as [content|]; [|reflexivity].
    cbn [andb]. rewrite IH.
    destruct (forallb _ _); [|reflexivity]. now rewrite app_assoc.
Qed.

Lemma scan_walk_eq (walk : list (string * list string)) (high : list finding) :
  scan_walk fs walk high
  = if forallb (readable fs) (candidates walk)
    then Some (high ++ flat_map (findings_of fs) (candidates walk))
    else None.
Proof.
  revert high. induction walk as [|[root files] walk IH]; intros high;
    cbn [scan_walk].
  - cbn. now rewrite app_nil_r.
  - unfold candidates. cbn [flat_map fst snd]. fold (candidates walk).
    destruct (contains "tests" root || contains "test" root).
    + cbn [app]. apply IH.
    + rewrite scan_files_eq, forallb_app, flat_map_app.
      destruct (forallb _ (map _ _)); [|reflexivity]. cbn [andb].
      rewrite IH. destruct (forallb _ _); [|reflexivity]. now rewrite app_assoc.
Qed.


End Reported.




(** ** What a match of the function pattern looks like *)









(** ** The file view keeps every reported function *)



Section Conserved.
Import Complexity.
Variable w : finding -> nat.

End Conserved.



(** ** The shape of the complexity report *)







(** ** Paths *)







(** ** The same files in another order *)

Lemma forallb_perm {A : Type} (f : A -> bool) (l l' : list A) :
  Permutation l l' -> forallb f l = forallb f l'.
Proof.
  induction 1 as [|x l l' _ IH|x y l|l l' l'' _ IH1 _ IH2]; cbn [forallb].
  - reflexivity.
  - now rewrite IH.
  - now rewrite !andb_assoc, (andb_comm (f y)).
  - now rewrite IH1.
Qed.

Lemma flat_map_perm {A B : Type} (f : A -> list B) (l l' : list A) :
  Permutation l l' -> Permutation (flat_map f l) (flat_map f l').
Proof.
  induction 1 as [|x l l' _ IH|x y l|l l' l'' _ IH1 _ IH2]; cbn [flat_map].
  - constructor.
  - now apply Permutation_app_head.
  - rewrite !app_assoc. apply Permutation_app_tail, Permutation_app_comm.
  - now transitivity (flat_map f l').
Qed.

Lemma first_seen_perm (l l' : list string) :
  Permutation l l' -> Permutation (first_seen l) (first_seen l').
Proof.
  intros H. apply NoDup_Permutation; try apply NoDup_first_seen.
  intros x. rewrite !in_first_seen. split; apply Permutation_in;
    [assumption|now apply Permutation_sym].
Qed.

Lemma filter_perm {A : Type} (f : A -> bool) (l l' : list A) :
  Permutation l l' -> Permutation (filter f l) (filter f l').
Proof.
  induction 1 as [|x l l' _ IH|x y l|l l' l'' _ IH1 _ IH2]; cbn [filter].
  - constructor.
  - destruct (f x); [now constructor|assumption].
  - destruct (f x), (f y); try reflexivity. constructor.
  - now transitivity (filter f l').
Qed.

Lemma production_unwraps_perm (fs : filesystem) (files files' : list string) :
  Permutation files files' ->
  Permutation (Unwraps.production_unwraps fs files) (Unwraps.production_unwraps fs files').
Proof.
  intros H. rewrite !production_unwraps_eq.
  apply Permutation_map, first_seen_perm, filter_perm, H.
Qed.

Lemma high_complexity_functions_perm (fs : filesystem)
    (walk walk' : list (string * list string)) :
  Permutation (candidates walk) (candidates walk') ->
  match Complexity.high_complexity_functions fs walk,
        Complexity.high_complexity_functions fs walk' with
  | Some high, Some high' => Permutation high high'
  | None, None => True
  | _, _ => False
  end.
Proof.
  intros H. unfold Complexity.high_complexity_functions. rewrite !scan_walk_eq.
  rewrite (forallb_perm _ _ _ H).
  destruct (forallb _ (candidates walk')); [|exact I]. cbn [app].
  rewrite (sort_reverse_perm _ (flat_map _ (candidates walk))).
  rewrite (sort_reverse_perm _ (flat_map _ (candidates walk'))).
  now apply flat_map_perm.
Qed.

(** C8 (as amended).  The two reports are functions of the candidate paths,
    in the order in which the file system lists them, and of the texts of
    those files: two runs with the same listing, over file systems that agree
    on the candidates, give the same reports.  Every ranked list is made by
    a stable sort.  Functions of equal complexity stay in the order in which
    the scan found them.  Files of equal total stand in the order in which
    the sorted list of functions first names them, which need not be the
    order in which the scan first saw them.  Files with equally many risky
    calls stay in the order in which the listing first names them.  Another
    listing of the same files changes what is found by its order only: the
    dictionary of the risky-call run and the list of reported functions are
    permutations of what they were. *)
Theorem reports_are_determined_by_the_listing (fs1 fs2 : filesystem)
    (rglob : list string) (walk : list (string * list string)) :
  (forall p, In p (Unwraps.files_to_check rglob) -> fs1 p = fs2 p) ->
  (forall p, In p (candidates walk) -> fs1 p = fs2 p) ->
  Unwraps.main fs1 rglob = Unwraps.main fs2 rglob
  /\ Complexity.main fs1 walk = Complexity.main fs2 walk
  /\ (forall found,
         Complexity.scan_walk fs1 walk [] = Some found ->
         exists high,
           Complexity.high_complexity_functions fs1 walk = Some high
           /\ Permutation high found
           /\ forall c, filter (fun x => Complexity.complexity_of x =? c) high
                        = filter (fun x => Complexity.complexity_of x =? c) found)
  /\ (forall high,
         Complexity.high_complexity_functions fs1 walk = Some high ->
         forall t,
           map (fun x => fst (fst x))
               (filter (fun x => Complexity.total_of x =? t)
                       (Complexity.file_complexities high))
           = filter (fun f => file_total high f =? t)
                    (first_seen (map Complexity.path_of high)))
  /\ (exists all,
         Unwraps.ranked (Unwraps.production_unwraps fs1 (Unwraps.files_to_check rglob))
         = firstn 10 all
         /\ Permutation all
              (Unwraps.production_unwraps fs1 (Unwraps.files_to_check rglob))
         /\ (forall n,
                filter (fun x => length (snd x) =? n) all
                = filter (fun x => length (snd x) =? n)
                         (Unwraps.production_unwraps fs1 (Unwraps.files_to_check rglob)))
         /\ map fst (Unwraps.production_unwraps fs1 (Unwraps.files_to_check rglob))
            = first_seen (filter (has_findings fs1) (Unwraps.files_to_check rglob)))
  /\ (forall rglob',
         Permutation (Unwraps.files_to_check rglob) (Unwraps.files_to_check rglob') ->
         Permutation (Unwraps.production_unwraps fs1 (Unwraps.files_to_check rglob))
                     (Unwraps.production_unwraps fs1 (Unwraps.files_to_check rglob')))
  /\ (forall walk',
         Permutation (candidates walk) (candidates walk') ->
         match Complexity.high_complexity_functions fs1 walk,
               Complexity.high_complexity_functions fs1 walk' with
         | Some high, Some high' => Permutation high high'
         | None, None => True
         | _, _ => False
         end).
Proof.
  intros Hu Hc. split; [|split; [|split; [|split; [|split; [|split]]]]].
  - unfold Unwraps.main, Unwraps.production_unwraps. f_equal.
    now apply collect_same.
  - unfold Complexity.main, Complexity.high_complexity_functions.
    now rewrite (scan_walk_same fs1 fs2 walk []).
  - intros found Hscan.
    destruct (high_complexity_functions_ties fs1 walk found Hscan)
      as (high & H1 & H2 & _ & H3).
    now exists high.
  - intros high _ t. apply file_complexities_ties.
  - exists (sorted count_key
              (Unwraps.production_unwraps fs1 (Unwraps.files_to_check rglob))).
    split; [apply ranked_eq|]. split; [apply sorted_perm|].
    split; [apply by_count_ties|].
    rewrite production_unwraps_eq, map_map. cbn [fst]. apply map_id.
  - intros rglob'. apply production_unwraps_perm.
  - intros walk'. apply high_complexity_functions_perm.
Qed.

Lemma reports_are_determined_by_the_listing_witness :
  Unwraps.main fs_tie ["src/a.rs"; "src/b.rs"]
  = Unwraps.main fs_tie_notes ["src/a.rs"; "src/b.rs"]
  /\ Complexity.main fs_tie walk_tie = Complexity.main fs_tie_notes walk_tie.
Proof.
  assert (H1 : forall p, In p (Unwraps.files_to_check ["src/a.rs"; "src/b.rs"]) ->
                         fs_tie p = fs_tie_notes p).
  { intros p Hp. vm_compute in Hp. destruct Hp as [<-|[<-|[]]]; reflexivity. }
  assert (H2 : forall p, In p (candidates walk_tie) -> fs_tie p = fs_tie_notes p).
  { intros p Hp. vm_compute in Hp. destruct Hp as [<-|[<-|[]]]; reflexivity. }
  destruct (reports_are_determined_by_the_listing
              fs_tie fs_tie_notes ["src/a.rs"; "src/b.rs"] walk_tie H1 H2)
    as (A & B & _).
  split; assumption.
Defined.

(** C8 (as stated, refuted).  With [src/b.rs] listed before [src/a.rs] the
    scan sees the two functions of complexity 11 of [src/b.rs] first and the
    one of complexity 22 of [src/a.rs] last; the totals are equal, and yet
    [a.rs] comes first in the file view: the tie is not broken by the order
    in which the files were first seen.  And the same two files, listed in
    the other order, give another report, of the risky-call run and of the
    complexity run alike. *)
Lemma listing_order_and_sorted_list_break_ties :
  Complexity.scan_walk fs_tie [("src", ["b.rs"; "a.rs"])] []
  = Some [("b1", 11, "src/b.rs"); ("b2", 11, "src/b.rs"); ("a", 22, "src/a.rs")]
  /\ option_map Complexity.top_files (Complexity.main fs_tie [("src", ["b.rs"; "a.rs"])])
     = Some [("a.rs", 22, 1); ("b.rs", 22, 2)]
  /\ Permutation ["a.rs"; "b.rs"] ["b.rs"; "a.rs"]
  /\ Unwraps.main fs_calls ["a.rs"; "b.rs"] <> Unwraps.main fs_calls ["b.rs"; "a.rs"]
  /\ Complexity.main fs_light [("src", ["a.rs"; "b.rs"])]
     <> Complexity.main fs_light [("src", ["b.rs"; "a.rs"])].
Proof.
  split; [reflexivity|]. split; [reflexivity|]. split; [constructor|]. split.
  - intros H. vm_compute in H. discriminate.
  - intros H. vm_compute in H. discriminate.
Qed.

(** ** scripts/fix_transaction_indentation.py: the loop *)

(** *** The loop as a function of the line before *)

Section Loop.
Import Indent.
Variable lines : list string.


End Loop.


(** ** What the loop does to a line *)













(** ** The text and its lines *)




















